(** * GreenTech: the plastic scanner of [src/App.js]

    The component [App] keeps five React state variables and two refs, asks
    the browser for a camera stream, polls a COCO-SSD model every 500 ms from
    a [setInterval] callback, draws the predictions on a canvas and, on a
    qualifying prediction, shows a table of recycling projects.

    The embedding follows the component handler by handler.  An [async]
    handler is cut at each [await]: the part before it runs when the handler
    is called, the part after it when the promise settles, and anything may
    happen in between.  A handler reads the state variables of the render
    that created it (its closure), and reads the refs and the browser as
    they are when it runs.  State setters are batched: the component renders
    again after the running part of the handler has returned.  A state that
    was set after an [await] or in a timer callback is rendered in a later
    task, so timers may fire and promises may settle before the render:
    [step] and [run] are the runs in which every render comes before the
    next event, [unrendered] is a row of handlers with no render between
    them.

    Left out, as no handler reads what they write: the effect that sets the
    size of the canvas, and the cleanup of the mount effect, which runs when
    the whole component is removed from the page. *)

From Stdlib Require Import Floats ZArith Ascii String List.
From stdpp Require Import gmap strings list fin_maps.

Local Open Scope string_scope.
Local Open Scope list_scope.

(* The literal 0.7 denotes the nearest double, as it does in JavaScript. *)
#[local] Set Warnings "-inexact-float".

(** ** The projects table *)

(** A string holds the UTF-8 bytes of the JavaScript string.  The line
    separator U+2028 and the paragraph separator U+2029 are three bytes
    each. *)
Definition LS : string :=
  String "226"%char (String "128"%char (String "168"%char EmptyString)).

Definition PS : string :=
  String "226"%char (String "128"%char (String "169"%char EmptyString)).

(** Whether [s] starts with a character [.] does not match: line feed,
    carriage return, U+2028 or U+2029.  The byte 226 only ever starts a
    character, so the test may be made at every byte. *)
Definition line_terminator (s : string) : bool :=
  match s with
  | EmptyString => false
  | String c r =>
      (Ascii.eqb c "010" || Ascii.eqb c "013"
       || (Ascii.eqb c "226"
           && match r with
              | String d (String e _) =>
                  Ascii.eqb d "128" && (Ascii.eqb e "168" || Ascii.eqb e "169")
              | _ => false
              end))%char
  end.

(** [strip p s] is what follows [p] when [s] starts with [p]. *)
Fixpoint strip (p s : string) : option string :=
  match p, s with
  | EmptyString, _ => Some s
  | String a p', String b s' => if Ascii.eqb a b then strip p' s' else None
  | String _ _, EmptyString => None
  end.

(** The longest prefix matched by [[^&?]*]. *)
Fixpoint id_run (s : string) : string :=
  match s with
  | EmptyString => EmptyString
  | String c s' =>
      if (Ascii.eqb c "&" || Ascii.eqb c "?")%char then EmptyString
      else String c (id_run s')
  end.

(** The capture group [([^&?]+)]: greedy, and at least one character. *)
Definition capture (s : string) : option string :=
  match id_run s with
  | EmptyString => None
  | id => Some id
  end.

(** [.+&v=([^&?]+)] once [.+] has taken its first character: [.+] is
    greedy and stops before a line terminator, so of the occurrences of
    [&v=] it can reach, the last that is followed by an id wins. *)
Fixpoint watch_tail (s : string) : option string :=
  match s with
  | EmptyString => None
  | String c s' =>
      match (if line_terminator s then None else watch_tail s') with
      | Some id => Some id
      | None => strip "&v=" s ≫= capture
      end
  end.

Definition first_some {A} (x y : option A) : option A :=
  match x with Some _ => x | None => y end.

(** The pattern of [getYouTubeThumbnail] tried at the start of [s], its
    alternatives in the order they are written. *)
Definition match_here (s : string) : option string :=
  first_some (strip "youtu.be/" s ≫= capture)
    (strip "youtube.com/" s ≫= fun r =>
       first_some (strip "embed/" r ≫= capture)
      (first_some (strip "v/" r ≫= capture)
      (first_some (strip "watch?v=" r ≫= capture)
                  (strip "watch?" r ≫= fun q =>
                     match q with
                     | EmptyString => None
                     | String _ q' =>
                         if line_terminator q then None else watch_tail q'
                     end)))).

(** [url.match(...)?.[1]]: the leftmost position where the pattern matches. *)
Fixpoint videoId (url : string) : option string :=
  match match_here url with
  | Some id => Some id
  | None =>
      match url with
      | EmptyString => None
      | String _ rest => videoId rest
      end
  end.

Definition getYouTubeThumbnail (url : string) : option string :=
  match videoId url with
  | Some id => Some ("https://img.youtube.com/vi/" +:+ id +:+ "/mqdefault.jpg")
  | None => None
  end.

Record Link := {
  type : string;
  link_title : string;
  url : string;
  thumbnail : option string;   (* videos only; [None] is [null] or absent *)
  source : option string       (* articles only *)
}.

Record Project := { title : string; links : list Link }.

(** The object literal [PROJECTS], by its own properties. *)
Definition PROJECTS : gmap string (list Project) :=
  <[ "bottle" :=
       [ {| title := "♻️ Plastic Bottle Projects";
            links :=
              [ {| type := "video";
                   link_title := "Self-Watering Plant System";
                   url := "https://youtu.be/9HIC__5x404";
                   thumbnail := getYouTubeThumbnail "https://youtu.be/9HIC__5x404";
                   source := None |};
                {| type := "article";
                   link_title := "25 Brilliant Bottle Recycling Ideas";
                   url := "https://www.boredpanda.com/plastic-bottle-recycling-ideas/";
                   thumbnail := None;
                   source := Some "Bored Panda" |} ] |} ] ]>
  (<[ "cup" :=
       [ {| title := "🖊️ Cup Upcycling Ideas";
            links :=
              [ {| type := "video";
                   link_title := "DIY Pen Holder from Plastic Cups";
                   url := "https://www.youtube.com/watch?v=5keP9lY5VII";
                   thumbnail :=
                     getYouTubeThumbnail
                       "https://www.youtube.com/watch?v=5keP9lY5VII";
                   source := None |};
                {| type := "article";
                   link_title := "10 Creative Uses for Old Cups";
                   url := "https://www.upcyclethat.com/plastic-cup-projects/";
                   thumbnail := None;
                   source := Some "Upcycle That" |} ] |} ] ]> ∅).

(** ** Detections and the overlay *)

Record Prediction := {
  class : string;
  score : float;
  bbox : float * float * float * float      (* [x, y, width, height] *)
}.

(** What [drawPredictions] paints.  The text of a label is
    [`${pred.class} (${Math.round(pred.score * 100)}%)`]; it is kept as the
    class and the number handed to [Math.round]. *)
Inductive Drawing :=
| strokeRect (x y width height : float)
| fillText (label : string) (percent : float) (x y : float).

Definition Canvas := list Drawing.

Definition draw (pred : Prediction) : list Drawing :=
  let '(x, y, width, height) := bbox pred in
  [ strokeRect x y width height;
    fillText (class pred) (score pred * 100)%float x
      (if (20 <? y)%float then (y - 5)%float else (y + 25)%float) ].

(** [ctx.clearRect] over the whole canvas, then one box and one label per
    prediction. *)
Definition drawPredictions (predictions : list Prediction) : Canvas :=
  flat_map draw predictions.

Definition plasticItems : list string := ["bottle"; "cup"].

Definition includes (items : list string) (s : string) : bool :=
  existsb (String.eqb s) items.

(** The callback handed to [predictions.find]. *)
Definition qualifies (pred : Prediction) : bool :=
  includes plasticItems (class pred) && (0.7 <? score pred)%float.

(** ** The component and the browser around it *)

(** The loaded detector.  What [model.detect] answers is an input of the
    component and arrives with the event that settles the call. *)
Inductive Model := CocoSsd.

(** The state variables that the handlers of one render read. *)
Record Render := {
  r_model : option Model;
  r_detectionInterval : option positive
}.

Record Video := { srcObject : option nat }.   (* an index into [streams] *)

Inductive Track := live | ended.

#[global] Instance Track_eq_dec : EqDecision Track.
Proof. solve_decision. Defined.

Definition MediaStream := list Track.

Record World := {
  scannedItem : option string;   (* useState(null) *)
  model : option Model;   (* useState(null) *)
  loading : bool;   (* useState(true) *)
  error : option string;   (* useState(null) *)
  detectionInterval : option positive;   (* useState(null) *)
  videoRef : option Video;   (* videoRef.current; [None] while no <video> is mounted *)
  canvasRef : option Canvas;   (* canvasRef.current *)
  mediaDevices : bool;   (* whether navigator.mediaDevices exists *)
  streams : list MediaStream;   (* every stream getUserMedia has handed out *)
  timers : gmap positive Render;   (* the active intervals, each with the render its callback closes over *)
  next_timer : positive;   (* the handle the next setInterval returns *)
  pending_media : list Render;   (* startDetection calls waiting at [await getUserMedia] *)
  in_flight : list Render;   (* detectObjects calls waiting at [await model.detect] *)
  console : list (string * string)   (* console.error lines *)
}.

Definition set_scannedItem (v : option string) (w : World) : World :=
  {| scannedItem := v; model := model w; loading := loading w; error := error
  w; detectionInterval := detectionInterval w; videoRef := videoRef w;
  canvasRef := canvasRef w; mediaDevices := mediaDevices w; streams := streams
  w; timers := timers w; next_timer := next_timer w; pending_media :=
  pending_media w; in_flight := in_flight w; console := console w |}.

Definition set_model (v : option Model) (w : World) : World :=
  {| scannedItem := scannedItem w; model := v; loading := loading w; error :=
  error w; detectionInterval := detectionInterval w; videoRef := videoRef w;
  canvasRef := canvasRef w; mediaDevices := mediaDevices w; streams := streams
  w; timers := timers w; next_timer := next_timer w; pending_media :=
  pending_media w; in_flight := in_flight w; console := console w |}.

Definition set_loading (v : bool) (w : World) : World :=
  {| scannedItem := scannedItem w; model := model w; loading := v; error :=
  error w; detectionInterval := detectionInterval w; videoRef := videoRef w;
  canvasRef := canvasRef w; mediaDevices := mediaDevices w; streams := streams
  w; timers := timers w; next_timer := next_timer w; pending_media :=
  pending_media w; in_flight := in_flight w; console := console w |}.

Definition set_error (v : option string) (w : World) : World :=
  {| scannedItem := scannedItem w; model := model w; loading := loading w;
  error := v; detectionInterval := detectionInterval w; videoRef := videoRef
  w; canvasRef := canvasRef w; mediaDevices := mediaDevices w; streams :=
  streams w; timers := timers w; next_timer := next_timer w; pending_media :=
  pending_media w; in_flight := in_flight w; console := console w |}.

Definition set_detectionInterval (v : option positive) (w : World) : World :=
  {| scannedItem := scannedItem w; model := model w; loading := loading w;
  error := error w; detectionInterval := v; videoRef := videoRef w; canvasRef
  := canvasRef w; mediaDevices := mediaDevices w; streams := streams w; timers
  := timers w; next_timer := next_timer w; pending_media := pending_media w;
  in_flight := in_flight w; console := console w |}.

Definition set_videoRef (v : option Video) (w : World) : World :=
  {| scannedItem := scannedItem w; model := model w; loading := loading w;
  error := error w; detectionInterval := detectionInterval w; videoRef := v;
  canvasRef := canvasRef w; mediaDevices := mediaDevices w; streams := streams
  w; timers := timers w; next_timer := next_timer w; pending_media :=
  pending_media w; in_flight := in_flight w; console := console w |}.

Definition set_canvasRef (v : option Canvas) (w : World) : World :=
  {| scannedItem := scannedItem w; model := model w; loading := loading w;
  error := error w; detectionInterval := detectionInterval w; videoRef :=
  videoRef w; canvasRef := v; mediaDevices := mediaDevices w; streams :=
  streams w; timers := timers w; next_timer := next_timer w; pending_media :=
  pending_media w; in_flight := in_flight w; console := console w |}.

Definition set_streams (v : list MediaStream) (w : World) : World :=
  {| scannedItem := scannedItem w; model := model w; loading := loading w;
  error := error w; detectionInterval := detectionInterval w; videoRef :=
  videoRef w; canvasRef := canvasRef w; mediaDevices := mediaDevices w;
  streams := v; timers := timers w; next_timer := next_timer w; pending_media
  := pending_media w; in_flight := in_flight w; console := console w |}.

Definition set_timers (v : gmap positive Render) (w : World) : World :=
  {| scannedItem := scannedItem w; model := model w; loading := loading w;
  error := error w; detectionInterval := detectionInterval w; videoRef :=
  videoRef w; canvasRef := canvasRef w; mediaDevices := mediaDevices w;
  streams := streams w; timers := v; next_timer := next_timer w; pending_media
  := pending_media w; in_flight := in_flight w; console := console w |}.

Definition set_next_timer (v : positive) (w : World) : World :=
  {| scannedItem := scannedItem w; model := model w; loading := loading w;
  error := error w; detectionInterval := detectionInterval w; videoRef :=
  videoRef w; canvasRef := canvasRef w; mediaDevices := mediaDevices w;
  streams := streams w; timers := timers w; next_timer := v; pending_media :=
  pending_media w; in_flight := in_flight w; console := console w |}.

Definition set_pending_media (v : list Render) (w : World) : World :=
  {| scannedItem := scannedItem w; model := model w; loading := loading w;
  error := error w; detectionInterval := detectionInterval w; videoRef :=
  videoRef w; canvasRef := canvasRef w; mediaDevices := mediaDevices w;
  streams := streams w; timers := timers w; next_timer := next_timer w;
  pending_media := v; in_flight := in_flight w; console := console w |}.

Definition set_in_flight (v : list Render) (w : World) : World :=
  {| scannedItem := scannedItem w; model := model w; loading := loading w;
  error := error w; detectionInterval := detectionInterval w; videoRef :=
  videoRef w; canvasRef := canvasRef w; mediaDevices := mediaDevices w;
  streams := streams w; timers := timers w; next_timer := next_timer w;
  pending_media := pending_media w; in_flight := v; console := console w |}.

Definition set_console (v : list (string * string)) (w : World) : World :=
  {| scannedItem := scannedItem w; model := model w; loading := loading w;
  error := error w; detectionInterval := detectionInterval w; videoRef :=
  videoRef w; canvasRef := canvasRef w; mediaDevices := mediaDevices w;
  streams := streams w; timers := timers w; next_timer := next_timer w;
  pending_media := pending_media w; in_flight := in_flight w; console := v |}.

(** The first render: the model is loading, nothing is mounted, nothing has
    been asked of the browser. *)
Definition init (supported : bool) : World :=
  {| scannedItem := None; model := None; loading := true; error := None;
     detectionInterval := None; videoRef := None; canvasRef := None;
     mediaDevices := supported; streams := []; timers := ∅; next_timer := 1;
     pending_media := []; in_flight := []; console := [] |}.

(** The closure a handler created by the current render carries. *)
Definition render_of (w : World) : Render :=
  {| r_model := model w; r_detectionInterval := detectionInterval w |}.

(** Truthiness of [scannedItem]: [null] and the empty string are falsy. *)
Definition truthy (s : option string) : bool :=
  match s with
  | Some s => negb (String.eqb s "")
  | None => false
  end.

(** The two branches of the conditional in the JSX. *)
Definition scanner_shown (w : World) : bool :=
  negb (loading w) && negb (truthy (scannedItem w)).

Definition results_shown (w : World) : bool :=
  negb (loading w) && truthy (scannedItem w).

(** [PROJECTS[scannedItem]?.map(...)]: the cards of the results view. *)
Definition project_cards (w : World) : list Project :=
  default [] (scannedItem w ≫= fun item => PROJECTS !! item).

(** Rendering: the scanner branch mounts a [<video>] and a [<canvas>] (new
    elements, unless they are on the page already); every other branch
    unmounts them, and React resets both refs. *)
Definition commit (w : World) : World :=
  if scanner_shown w then
    set_videoRef (Some (default {| srcObject := None |} (videoRef w)))
      (set_canvasRef (Some (default [] (canvasRef w))) w)
  else set_videoRef None (set_canvasRef None w).

(** *** Timers *)

Definition setInterval (callback : Render) (w : World) : World :=
  set_next_timer (next_timer w + 1)%positive
    (set_timers (<[next_timer w := callback]> (timers w)) w).

Definition clearInterval (t : positive) (w : World) : World :=
  set_timers (delete t (timers w)) w.

(** *** stopCamera *)

Definition stop (s : MediaStream) : MediaStream := map (fun _ => ended) s.

Definition stopCamera (w : World) : World :=
  match videoRef w with
  | Some video =>
      match srcObject video with
      | Some i => set_streams (alter stop i (streams w)) w
      | None => w
      end
  | None => w
  end.

(** *** startDetection *)

(** What V8 reports when [navigator.mediaDevices] is undefined. *)
Definition no_mediaDevices : string :=
  "Cannot read properties of undefined (reading 'getUserMedia')".

Definition startDetection_catch (message : string) (w : World) : World :=
  set_error (Some ("Camera error: " +:+ message)) w.

(** Up to [await navigator.mediaDevices.getUserMedia(...)]. *)
Definition startDetection_call (w : World) : World :=
  if mediaDevices w then set_pending_media (pending_media w ++ [render_of w]) w
  else startDetection_catch no_mediaDevices w.

(** After the [await], with a stream of [tracks] live tracks. *)
Definition startDetection_resume (r : Render) (tracks : nat) (w : World) : World :=
  let stream := length (streams w) in
  let w := set_streams (streams w ++ [replicate tracks live]) w in
  let w := match videoRef w with
           | Some _ => set_videoRef (Some {| srcObject := Some stream |}) w
           | None => w
           end in
  let w := match r_detectionInterval r with
           | Some t => clearInterval t w
           | None => w
           end in
  let interval := next_timer w in
  let w := setInterval r w in
  set_detectionInterval (Some interval) w.

(** *** detectObjects *)

Definition detectObjects_catch (err : string) (w : World) : World :=
  set_console (console w ++ [("Detection error:", err)]) w.

(** Up to [await model.detect(videoRef.current)]. *)
Definition detectObjects_call (r : Render) (w : World) : World :=
  match r_model r, videoRef w, canvasRef w with
  | Some _, Some _, Some _ => set_in_flight (in_flight w ++ [r]) w
  | _, _, _ => w
  end.

(** What V8 reports when [drawPredictions] finds [canvasRef.current] null. *)
Definition no_canvas : string :=
  "Cannot read properties of null (reading 'getContext')".

(** After the [await], with the predictions of the model. *)
Definition detectObjects_resume (r : Render) (predictions : list Prediction)
    (w : World) : World :=
  match canvasRef w with
  | None => detectObjects_catch no_canvas w
  | Some _ =>
      let w := set_canvasRef (Some (drawPredictions predictions)) w in
      match find qualifies predictions with
      | Some detectedItem =>
          let w := set_scannedItem (Some (class detectedItem)) w in
          let w := stopCamera w in
          match r_detectionInterval r with
          | Some t => set_detectionInterval None (clearInterval t w)
          | None => w
          end
      | None => w
      end
  end.

(** *** resetScanner *)

Definition resetScanner (w : World) : World :=
  let w := set_scannedItem None w in
  match canvasRef w with
  | Some _ => set_canvasRef (Some []) w
  | None => w
  end.

(** *** The model loader of the mount effect *)

Definition loadModel_resume (w : World) : World :=
  set_loading false (set_model (Some CocoSsd) w).

Definition loadModel_catch (message : string) (w : World) : World :=
  set_loading false (set_error (Some ("Failed to load model: " +:+ message)) w).

(** ** Events

    Everything that makes the component run: the two buttons, the timers,
    and the promises that settle. *)
Inductive Event :=
| ModelLoaded
| ModelLoadFailed (message : string)
| ClickStart
| CameraGranted (request tracks : nat)
| CameraRejected (request : nat) (message : string)
| Tick (t : positive)
| DetectResolved (poll : nat) (predictions : list Prediction)
| DetectRejected (poll : nat) (err : string)
| ClickReset.

(** The handler of an event.  An event that cannot happen (a button that is
    not on the page, a timer that was cleared, a promise that does not
    exist) changes nothing. *)
Definition handle (e : Event) (w : World) : World :=
  match e with
  | ModelLoaded => if loading w then loadModel_resume w else w
  | ModelLoadFailed message => if loading w then loadModel_catch message w else w
  | ClickStart => if scanner_shown w then startDetection_call w else w
  | CameraGranted i tracks =>
      match pending_media w !! i with
      | Some r =>
          startDetection_resume r tracks
            (set_pending_media (delete i (pending_media w)) w)
      | None => w
      end
  | CameraRejected i message =>
      match pending_media w !! i with
      | Some _ =>
          startDetection_catch message
            (set_pending_media (delete i (pending_media w)) w)
      | None => w
      end
  | Tick t =>
      match timers w !! t with
      | Some r => detectObjects_call r w
      | None => w
      end
  | DetectResolved i predictions =>
      match in_flight w !! i with
      | Some r =>
          detectObjects_resume r predictions
            (set_in_flight (delete i (in_flight w)) w)
      | None => w
      end
  | DetectRejected i err =>
      match in_flight w !! i with
      | Some _ =>
          detectObjects_catch err (set_in_flight (delete i (in_flight w)) w)
      | None => w
      end
  | ClickReset => if results_shown w then resetScanner w else w
  end.

(** One turn of the event loop: the handler, then the render it asked for. *)
Definition step (w : World) (e : Event) : World := commit (handle e w).

Definition run (w : World) (es : list Event) : World := fold_left step es w.

(** The worlds the component can be in. *)
Definition reachable (w : World) : Prop :=
  exists supported es, w = run (init supported) es.

(** ** The operations of the contract, as runs of events *)

(** [start()] with the camera granted at once. *)
Definition start (tracks : nat) (w : World) : World :=
  run w [ClickStart; CameraGranted (length (pending_media w)) tracks].

(** [start()] with the camera refused. *)
Definition start_refused (message : string) (w : World) : World :=
  run w [ClickStart; CameraRejected (length (pending_media w)) message].

(** One poll of timer [t] that the model answers before anything else
    happens. *)
Definition poll (t : positive) (predictions : list Prediction) (w : World) : World :=
  run w [Tick t; DetectResolved (length (in_flight w)) predictions].

Definition reset (w : World) : World := step w ClickReset.

(** Handlers that run one after the other with no render between them:
    timers that fire and promises that settle before React has rendered what
    the earlier ones set.  The refs are those of the last render.  It is
    meant for these events only: a click runs the handler of the render that
    is on the page. *)
Definition unrendered (w : World) (es : list Event) : World :=
  fold_left (fun w e => handle e w) es w.

(** The events of polling: a tick, and the answer or the failure of the
    model. *)
Definition polls (e : Event) : Prop :=
  match e with
  | Tick _ | DetectResolved _ _ | DetectRejected _ _ => True
  | _ => False
  end.

(** ** Observations *)

Definition live_tracks (w : World) : nat :=
  length (filter (fun t => t = live) (concat (streams w))).

Definition active_timers (w : World) : nat := size (timers w).

(** ** Predicates on worlds *)

(** A world is rendered when rendering it again changes nothing. *)
Definition rendered (w : World) : Prop := commit w = w.

(** What a match would disturb: the recorded label, the video and its
    stream, the tracks of every stream, the timers and the stored handle. *)
Definition undisturbed (w w' : World) : Prop :=
  scannedItem w' = scannedItem w /\ videoRef w' = videoRef w
  /\ streams w' = streams w /\ timers w' = timers w
  /\ detectionInterval w' = detectionInterval w.

(** The idle state of the contract: the Start button is on the page, no
    item is recorded and no timer is scheduled. *)
Definition Idle (w : World) : Prop :=
  scanner_shown w = true /\ scannedItem w = None /\ active_timers w = 0.

(** Every label that gets recorded passed the allow-list. *)
Definition labelled (w : World) : Prop :=
  forall l, scannedItem w = Some l -> includes plasticItems l = true.

(** The handle a closure holds is dead: no timer answers to it, and it has
    been handed out already, so no timer ever will. *)
Definition dead_handle (w : World) (r : Render) : Prop :=
  forall d, r_detectionInterval r = Some d ->
            timers w !! d = None /\ (d < next_timer w)%positive.

(** Timer handles are handed out in increasing order, and the closure of
    every active timer and of every poll in flight holds a dead handle. *)
Record handles_ok (w : World) : Prop := {
  timers_below :
    forall t r, timers w !! t = Some r -> (t < next_timer w)%positive;
  state_below :
    forall d, detectionInterval w = Some d -> (d < next_timer w)%positive;
  pending_below :
    forall r d, r ∈ pending_media w -> r_detectionInterval r = Some d ->
                (d < next_timer w)%positive;
  timers_dead : forall t r, timers w !! t = Some r -> dead_handle w r;
  in_flight_dead : forall r, r ∈ in_flight w -> dead_handle w r
}.

(** ** Scenarios *)

Definition detection (label : string) (confidence : float) : Prediction :=
  {| class := label; score := confidence; bbox := (0, 0, 10, 10)%float |}.

(** The page once the model has loaded, and after a first [start()] that
    was granted a stream of one track. *)
Definition loaded : World := run (init true) [ModelLoaded].

Definition detecting : World := start 1 loaded.

(** [detecting], with the poll of the first tick still in flight. *)
Definition polling : World := step detecting (Tick 1).

(** The results view after the first match of [detecting]. *)
Definition matched : World := poll 1 [detection "bottle" 0.75] detecting.

(** [detecting] after two ticks of which the first poll matched: the second
    poll is still in flight in the results view. *)
Definition matched_overlapping : World :=
  run detecting [Tick 1; Tick 1; DetectResolved 0 [detection "bottle" 0.75]].

(** The second and third sessions that follow [matched]. *)
Definition detecting_again : World := start 1 (reset matched).

Definition matched_again : World :=
  poll 2 [detection "cup" 0.9] detecting_again.

Definition detecting_thrice : World := start 1 (reset matched_again).

(** The only timer that may run is the one whose handle the state holds. *)
Definition one_timer (w : World) : Prop :=
  forall t, is_Some (timers w !! t) -> detectionInterval w = Some t.

(** Stream [i] was handed out, and the video does not show it. *)
Definition detached (w : World) (i : nat) : Prop :=
  i < length (streams w)
  /\ forall v, videoRef w = Some v -> srcObject v <> Some i.

(** Every closure that waits or ticks holds the model of the state. *)
Definition closures_current (w : World) : Prop :=
  (forall t r, timers w !! t = Some r -> r_model r = model w)
  /\ (forall r, r ∈ pending_media w -> r_model r = model w)
  /\ (forall r, r ∈ in_flight w -> r_model r = model w).

(** Detection is off: the model is missing for good and nothing was, or is
    being, detected. *)
Definition detection_off (w : World) : Prop :=
  loading w = false /\ model w = None /\ scannedItem w = None
  /\ in_flight w = [].

(** A second click on Start while the first session polls, a match, and
    only then the answer of the camera to that click. *)
Definition matched_while_asking : World :=
  run detecting [ClickStart; Tick 1; DetectResolved 0 [detection "bottle" 0.75]].

(** [polling] after a second tick and a first answer without a match: the
    chair is on the overlay and one poll is still in flight. *)
Definition chair_drawn : World :=
  run polling [Tick 1; DetectResolved 0 [detection "chair" 0.95]].

(** [detecting] after two ticks, with both polls in flight. *)
Definition two_in_flight : World := run detecting [Tick 1; Tick 1].

(** The camera was refused once. *)
Definition refused : World := start_refused "Permission denied" loaded.

(** ** Predicates on links *)

(** No character of [s] is [&] or [?]. *)
Definition separator_free (s : string) : Prop :=
  forall n c, String.get n s = Some c -> c <> "&"%char /\ c <> "?"%char.

(** What may follow a video id in a link: nothing, or a further parameter. *)
Definition ends_id (rest : string) : Prop :=
  rest = "" \/ exists r, rest = String "&" r \/ rest = String "?" r.

(** The link forms the pattern names, behind their usual scheme and host. *)
Definition link_forms : list string :=
  [ "https://youtu.be/";
    "https://www.youtube.com/embed/";
    "https://www.youtube.com/v/";
    "https://www.youtube.com/watch?v=" ].

(** ** Numbers

    A JavaScript number is an IEEE 754 double; [PrimFloat.float] is the same
    type, and its comparisons are the ones [>] computes. *)

Module Number.

Lemma compare_cont_swap (p q : positive) :
  Pos.compare_cont Eq q p = CompOpp (Pos.compare_cont Eq p q).
Proof. symmetry. exact (Pos.compare_cont_antisym p q Eq). Qed.

Lemma SFcompare_le_not_gt (a b : spec_float) :
  SFleb a b = true -> SFltb b a = false.
Proof.
  unfold SFleb, SFltb, SFcompare.
  destruct a as [sa | sa | | sa ma ea], b as [sb | sb | | sb mb eb];
    try destruct sa; try destruct sb; try (intros; reflexivity);
    try discriminate;
    rewrite (Z.compare_antisym ea eb), (compare_cont_swap ma mb);
    destruct (Z.compare ea eb); simpl; try discriminate; try reflexivity;
    destruct (Pos.compare_cont Eq ma mb); simpl; try discriminate; reflexivity.
Qed.

(** [x <= y] excludes [y < x]; a NaN satisfies neither. *)
Lemma leb_not_gt (x y : float) :
  PrimFloat.leb x y = true -> PrimFloat.ltb y x = false.
Proof.
  rewrite leb_spec, ltb_spec. apply SFcompare_le_not_gt.
Qed.

End Number.

(** ** The thumbnails of the table *)

Example thumbnail_short :
  getYouTubeThumbnail "https://youtu.be/9HIC__5x404"
  = Some "https://img.youtube.com/vi/9HIC__5x404/mqdefault.jpg".
Proof. reflexivity. Qed.

Example thumbnail_watch :
  getYouTubeThumbnail "https://www.youtube.com/watch?v=5keP9lY5VII&t=3"
  = Some "https://img.youtube.com/vi/5keP9lY5VII/mqdefault.jpg".
Proof. reflexivity. Qed.

Example thumbnail_watch_late :
  getYouTubeThumbnail "https://youtube.com/watch?a=1&v=abc&v=xyz?q"
  = Some "https://img.youtube.com/vi/xyz/mqdefault.jpg".
Proof. reflexivity. Qed.

Example thumbnail_none : getYouTubeThumbnail "https://example.org/" = None.
Proof. reflexivity. Qed.

(** [.+] does not cross a line terminator, of one byte or of three. *)
Example thumbnail_line_feed :
  getYouTubeThumbnail "https://youtube.com/watch?a
&v=abc" = None.
Proof. reflexivity. Qed.

Example thumbnail_line_separator :
  getYouTubeThumbnail ("https://youtube.com/watch?a" +:+ LS +:+ "&v=abc") = None
  /\ getYouTubeThumbnail ("https://youtube.com/watch?" +:+ PS +:+ "&v=abc") = None.
Proof. split; reflexivity. Qed.

(** The id itself may hold one: [[^&?]] matches every other character. *)
Example thumbnail_before_line_separator :
  getYouTubeThumbnail
    ("https://youtube.com/watch?a&v=one" +:+ LS +:+ "&v=two")
  = Some ("https://img.youtube.com/vi/" +:+ "one" +:+ LS +:+ "/mqdefault.jpg").
Proof. reflexivity. Qed.

(** ** Rendering *)

(** Rendering touches the two refs and nothing else. *)
Ltac through_commit w :=
  unfold commit; case_eq (scanner_shown w); intros E;
  [ try reflexivity; exact E | try reflexivity; exact E ].

Lemma commit_scannedItem w : scannedItem (commit w) = scannedItem w.
Proof. through_commit w. Qed.

Lemma commit_loading w : loading (commit w) = loading w.
Proof. through_commit w. Qed.

Lemma commit_model w : model (commit w) = model w.
Proof. through_commit w. Qed.

Lemma commit_error w : error (commit w) = error w.
Proof. through_commit w. Qed.

Lemma commit_detectionInterval w :
  detectionInterval (commit w) = detectionInterval w.
Proof. through_commit w. Qed.

Lemma commit_mediaDevices w : mediaDevices (commit w) = mediaDevices w.
Proof. through_commit w. Qed.

Lemma commit_streams w : streams (commit w) = streams w.
Proof. through_commit w. Qed.

Lemma commit_timers w : timers (commit w) = timers w.
Proof. through_commit w. Qed.

Lemma commit_next_timer w : next_timer (commit w) = next_timer w.
Proof. through_commit w. Qed.

Lemma commit_pending_media w : pending_media (commit w) = pending_media w.
Proof. through_commit w. Qed.

Lemma commit_in_flight w : in_flight (commit w) = in_flight w.
Proof. through_commit w. Qed.

Lemma commit_console w : console (commit w) = console w.
Proof. through_commit w. Qed.

Lemma commit_scanner_shown w : scanner_shown (commit w) = scanner_shown w.
Proof. through_commit w. Qed.

Lemma commit_results_shown w : results_shown (commit w) = results_shown w.
Proof. through_commit w. Qed.

Ltac commit_fields :=
  rewrite ?commit_scannedItem, ?commit_loading, ?commit_model, ?commit_error,
    ?commit_detectionInterval, ?commit_mediaDevices, ?commit_streams,
    ?commit_timers, ?commit_next_timer, ?commit_pending_media,
    ?commit_in_flight, ?commit_console, ?commit_scanner_shown,
    ?commit_results_shown.

Lemma commit_rendered w : rendered (commit w).
Proof.
  unfold rendered, commit at 1. rewrite commit_scanner_shown.
  unfold commit. destruct (scanner_shown w); reflexivity.
Qed.

Lemma step_rendered w e : rendered (step w e).
Proof. apply commit_rendered. Qed.

(** While the scanner is on the page both elements are mounted; while it
    is not, neither is. *)
Lemma rendered_shown w :
  rendered w -> scanner_shown w = true ->
  is_Some (videoRef w) /\ is_Some (canvasRef w).
Proof.
  unfold rendered, commit. intros H Hs. rewrite Hs in H. rewrite <- H.
  split; eexists; reflexivity.
Qed.

Lemma rendered_hidden w :
  rendered w -> scanner_shown w = false ->
  videoRef w = None /\ canvasRef w = None.
Proof.
  unfold rendered, commit. intros H Hs. rewrite Hs in H. rewrite <- H.
  split; reflexivity.
Qed.

(** The converse: a world whose refs agree with the branch on the page is
    rendered. *)
Lemma rendered_intro w :
  (if scanner_shown w then is_Some (videoRef w) /\ is_Some (canvasRef w)
   else videoRef w = None /\ canvasRef w = None) ->
  rendered w.
Proof.
  unfold rendered, commit. destruct (scanner_shown w).
  - intros [[v Ev] [c Ec]]. destruct w; simpl in *; subst. reflexivity.
  - intros [Ev Ec]. destruct w; simpl in *; subst. reflexivity.
Qed.

(** Projections and setters, computed; maps and lists are left alone. *)
Ltac fields :=
  cbn [r_model r_detectionInterval
       scannedItem model loading error detectionInterval videoRef canvasRef
       mediaDevices streams timers next_timer pending_media in_flight console
       set_scannedItem set_model set_loading set_error set_detectionInterval
       set_videoRef set_canvasRef set_streams set_timers set_next_timer
       set_pending_media set_in_flight set_console] in *.

(** ** Reachable worlds *)

Lemma run_snoc w es e : run w (es ++ [e]) = step (run w es) e.
Proof. unfold run. rewrite fold_left_app. reflexivity. Qed.

Lemma reachable_init supported : reachable (init supported).
Proof. exists supported, []. reflexivity. Qed.

Lemma reachable_step w e : reachable w -> reachable (step w e).
Proof.
  intros (s & es & ->). exists s, (es ++ [e]). symmetry. apply run_snoc.
Qed.

Lemma reachable_run w es : reachable w -> reachable (run w es).
Proof.
  revert w. induction es as [| e es IH]; intros w H; [exact H |].
  simpl. apply IH, reachable_step, H.
Qed.

(** Induction over the events that led to a world. *)
Lemma reachable_ind (P : World -> Prop) :
  (forall supported, P (init supported)) ->
  (forall w e, reachable w -> P w -> P (step w e)) ->
  forall w, reachable w -> P w.
Proof.
  intros Hinit Hstep w (s & es & ->).
  induction es as [| e es IH] using rev_ind.
  - apply Hinit.
  - rewrite run_snoc. apply Hstep; [| exact IH].
    exists s, es. reflexivity.
Qed.

Lemma reachable_rendered w : reachable w -> rendered w.
Proof.
  intros (s & es & ->). destruct es as [| e es] using rev_ind.
  - reflexivity.
  - rewrite run_snoc. apply step_rendered.
Qed.

(** ** The filter of a poll *)

Lemma find_qualifies_none (predictions : list Prediction) :
  (forall p, p ∈ predictions -> qualifies p = false) ->
  find qualifies predictions = None.
Proof.
  induction predictions as [| p ps IH]; intros H; [reflexivity |].
  simpl. rewrite (H p) by apply list_elem_of_here.
  apply IH. intros q Hq. apply H, list_elem_of_further, Hq.
Qed.

Lemma find_qualifies_first (before after : list Prediction) (p : Prediction) :
  (forall q, q ∈ before -> qualifies q = false) ->
  qualifies p = true ->
  find qualifies (before ++ p :: after) = Some p.
Proof.
  induction before as [| b bs IH]; intros H Hp; simpl.
  - rewrite Hp. reflexivity.
  - rewrite (H b) by apply list_elem_of_here.
    apply IH; [| exact Hp]. intros q Hq. apply H, list_elem_of_further, Hq.
Qed.

Lemma find_qualifies_some (predictions : list Prediction) (p : Prediction) :
  find qualifies predictions = Some p ->
  p ∈ predictions /\ includes plasticItems (class p) = true
  /\ (0.7 <? score p)%float = true.
Proof.
  induction predictions as [| q qs IH]; simpl; [discriminate |].
  destruct (qualifies q) eqn:E.
  - intros [= ->]. split; [apply list_elem_of_here |].
    unfold qualifies in E. apply andb_prop in E. exact E.
  - intros H. destruct (IH H) as (Hin & Hrest).
    split; [apply list_elem_of_further, Hin | exact Hrest].
Qed.

Lemma includes_plasticItems (s : string) :
  includes plasticItems s = true <-> s = "bottle" \/ s = "cup".
Proof.
  unfold includes, plasticItems. cbn [existsb].
  destruct (String.eqb_spec s "bottle") as [-> | Hb]; [split; auto |].
  destruct (String.eqb_spec s "cup") as [-> | Hc]; [split; auto |].
  split; [discriminate | intros [-> | ->]; contradiction].
Qed.

(** An allow-listed label at or below the threshold does not qualify, and
    neither does any other label. *)
Lemma low_confidence_not_qualifying (p : Prediction) :
  (includes plasticItems (class p) = true -> (score p <=? 0.7)%float = true) ->
  qualifies p = false.
Proof.
  unfold qualifies. intros H.
  destruct (includes plasticItems (class p)); [| reflexivity].
  simpl. apply Number.leb_not_gt, H. reflexivity.
Qed.

(** ** A poll that finds nothing *)

Lemma undisturbed_refl w : undisturbed w w.
Proof. repeat split. Qed.

Lemma undisturbed_trans w1 w2 w3 :
  undisturbed w1 w2 -> undisturbed w2 w3 -> undisturbed w1 w3.
Proof.
  unfold undisturbed. intros (a1 & a2 & a3 & a4 & a5) (b1 & b2 & b3 & b4 & b5).
  repeat split; congruence.
Qed.

(** A handler that keeps [loading] and [scannedItem], and keeps the video
    and the canvas mounted or unmounted as they were, asks for no change of
    the page. *)
Lemma commit_same_view w w' :
  rendered w ->
  loading w' = loading w -> scannedItem w' = scannedItem w ->
  (is_Some (videoRef w') <-> is_Some (videoRef w)) ->
  (is_Some (canvasRef w') <-> is_Some (canvasRef w)) ->
  commit w' = w'.
Proof.
  intros H Hl Hs Hv Hc. apply rendered_intro.
  replace (scanner_shown w') with (scanner_shown w)
    by (unfold scanner_shown; rewrite Hl, Hs; reflexivity).
  destruct (scanner_shown w) eqn:E.
  - destruct (rendered_shown w H E) as [Ev Ec].
    split; [apply Hv, Ev | apply Hc, Ec].
  - destruct (rendered_hidden w H E) as [Ev Ec].
    rewrite Ev in Hv. rewrite Ec in Hc.
    split; apply eq_None_not_Some; intros X;
      [apply Hv in X | apply Hc in X]; exact (is_Some_None X).
Qed.

Lemma tick_undisturbed w t :
  rendered w ->
  undisturbed w (step w (Tick t)) /\ canvasRef (step w (Tick t)) = canvasRef w
  /\ loading (step w (Tick t)) = loading w.
Proof.
  intros H. unfold step, handle.
  destruct (timers w !! t) as [r |]; [| rewrite H; repeat split].
  unfold detectObjects_call.
  destruct (r_model r), (videoRef w) eqn:Ev, (canvasRef w) eqn:Ec;
    try (rewrite H; repeat split; assumption).
  rewrite (commit_same_view w); fields; try reflexivity; try assumption.
  repeat split; assumption.
Qed.

Lemma resolved_no_match w i predictions :
  rendered w ->
  find qualifies predictions = None ->
  undisturbed w (step w (DetectResolved i predictions)).
Proof.
  intros H Hf. unfold step, handle.
  destruct (in_flight w !! i) as [r |]; [| rewrite H; apply undisturbed_refl].
  unfold detectObjects_resume, detectObjects_catch. fields. rewrite Hf.
  destruct (canvasRef w) as [c |] eqn:Ec;
    rewrite (commit_same_view w); fields; try reflexivity; try assumption;
    try (repeat split; fail).
  rewrite Ec. split; intros _; eexists; reflexivity.
Qed.

(** C2. In a rendered world, a poll whose predictions carry no allow-listed
    label with a confidence above 0.7 (each allow-listed one is at or below
    it) triggers no match: the scanned item, the video and its stream, the
    tracks, the timers and the stored timer handle are what they were. This
    holds for the completion of any poll in flight and for a whole poll of
    any timer. *)
Theorem low_confidence_no_match (w : World) (i : nat) (t : positive)
    (predictions : list Prediction) :
  rendered w ->
  (forall p, p ∈ predictions -> includes plasticItems (class p) = true ->
             (score p <=? 0.7)%float = true) ->
  undisturbed w (step w (DetectResolved i predictions))
  /\ undisturbed w (poll t predictions w).
Proof.
  intros H Hlow.
  assert (Hf : find qualifies predictions = None).
  { apply find_qualifies_none. intros p Hp.
    apply low_confidence_not_qualifying, Hlow, Hp. }
  split; [apply resolved_no_match; assumption |].
  unfold poll, run. simpl.
  destruct (tick_undisturbed w t H) as (Hu & _).
  eapply undisturbed_trans; [exact Hu |].
  apply resolved_no_match; [apply step_rendered | exact Hf].
Qed.

Lemma low_confidence_no_match_witness :
  rendered polling
  /\ (forall p, p ∈ [detection "chair" 0.95; detection "bottle" 0.7] ->
                includes plasticItems (class p) = true ->
                (score p <=? 0.7)%float = true)
  /\ undisturbed polling
       (step polling
          (DetectResolved 0 [detection "chair" 0.95; detection "bottle" 0.7]))
  /\ undisturbed polling
       (poll 1 [detection "chair" 0.95; detection "bottle" 0.7] polling).
Proof.
  assert (Hr : rendered polling) by reflexivity.
  assert (Hlow : forall p,
             p ∈ [detection "chair" 0.95; detection "bottle" 0.7] ->
             includes plasticItems (class p) = true ->
             (score p <=? 0.7)%float = true).
  { intros p Hp. apply list_elem_of_In in Hp. simpl in Hp.
    destruct Hp as [<- | [<- | []]]; [discriminate | reflexivity]. }
  split; [exact Hr |]. split; [exact Hlow |].
  exact (low_confidence_no_match polling 0 1 _ Hr Hlow).
Defined.

(** ** A poll that fails *)

(** A tick of an active timer whose closure holds the model starts a poll
    whenever the scanner is on the page, whatever is already in flight. *)
Lemma tick_starts_poll w t r :
  rendered w -> scanner_shown w = true ->
  timers w !! t = Some r -> is_Some (r_model r) ->
  in_flight (step w (Tick t)) = in_flight w ++ [r].
Proof.
  intros H Hs Ht [m Hm]. unfold step, handle. rewrite Ht. commit_fields.
  unfold detectObjects_call. rewrite Hm.
  destruct (rendered_shown w H Hs) as [[v ->] [c ->]]. reflexivity.
Qed.

(** C7. When [model.detect] rejects, the poll logs the error and does
    nothing else: the scanned item, the video and its stream, the tracks,
    the timers and the stored handle are what they were, the canvas is not
    touched, and the next tick of any timer that could poll before starts a
    poll again. *)
Theorem detection_error_swallowed (w : World) (i : nat) (err : string) (r : Render) :
  rendered w ->
  in_flight w !! i = Some r ->
  let w' := step w (DetectRejected i err) in
  console w' = console w ++ [("Detection error:", err)]
  /\ undisturbed w w'
  /\ canvasRef w' = canvasRef w
  /\ in_flight w' = delete i (in_flight w)
  /\ (forall t r', scanner_shown w = true -> timers w !! t = Some r' ->
        is_Some (r_model r') ->
        in_flight (step w' (Tick t)) = in_flight w' ++ [r']).
Proof.
  intros H Hi w'.
  assert (Hw' : w' = detectObjects_catch err
                       (set_in_flight (delete i (in_flight w)) w)).
  { unfold w', step, handle. rewrite Hi.
    apply (commit_same_view w); fields; try reflexivity; assumption. }
  assert (Hr' : rendered w') by apply step_rendered.
  rewrite Hw' in *. clear Hw' w'.
  split; [reflexivity |]. split; [repeat split |].
  split; [reflexivity |]. split; [reflexivity |].
  intros t r' Hs Ht Hm. apply tick_starts_poll; assumption.
Qed.

Lemma detection_error_swallowed_witness :
  rendered polling
  /\ in_flight polling !! 0 = Some {| r_model := Some CocoSsd;
                                     r_detectionInterval := None |}
  /\ console (step polling (DetectRejected 0 "backend lost"))
     = [("Detection error:", "backend lost")]
  /\ undisturbed polling (step polling (DetectRejected 0 "backend lost"))
  /\ active_timers (step polling (DetectRejected 0 "backend lost")) = 1
  /\ live_tracks (step polling (DetectRejected 0 "backend lost")) = 1.
Proof.
  assert (Hr : rendered polling) by reflexivity.
  assert (Hi : in_flight polling !! 0
               = Some {| r_model := Some CocoSsd; r_detectionInterval := None |})
    by reflexivity.
  destruct (detection_error_swallowed polling 0 "backend lost" _ Hr Hi)
    as (Hc & Hu & _).
  split; [exact Hr |]. split; [exact Hi |]. split; [exact Hc |].
  split; [exact Hu |]. split; reflexivity.
Defined.

(** ** A poll that matches *)

(** The label a completed poll leaves in [scannedItem]. *)
Lemma resolved_scannedItem w i r predictions p :
  in_flight w !! i = Some r -> is_Some (canvasRef w) ->
  find qualifies predictions = Some p ->
  scannedItem (step w (DetectResolved i predictions)) = Some (class p).
Proof.
  intros Hi [c Hc] Hf. unfold step, handle. rewrite Hi. commit_fields.
  unfold detectObjects_resume. fields. rewrite Hc, Hf.
  unfold stopCamera, clearInterval. fields.
  destruct (r_detectionInterval r), (videoRef w) as [[[s |]] |]; reflexivity.
Qed.

(** C8. When the predictions of a poll hold several qualifying entries, the
    label recorded is the one of the first of them in the order of the
    list: every entry before it fails the test, and what comes after it is
    not looked at. *)
Theorem first_qualifying_recorded (w : World) (i : nat) (r : Render)
    (before after : list Prediction) (p : Prediction) :
  in_flight w !! i = Some r -> is_Some (canvasRef w) ->
  (forall q, q ∈ before -> qualifies q = false) ->
  qualifies p = true ->
  scannedItem (step w (DetectResolved i (before ++ p :: after)))
  = Some (class p).
Proof.
  intros Hi Hc Hb Hp.
  apply (resolved_scannedItem w i r); try assumption.
  apply find_qualifies_first; assumption.
Qed.

Lemma first_qualifying_recorded_witness :
  in_flight polling !! 0 = Some {| r_model := Some CocoSsd;
                                   r_detectionInterval := None |}
  /\ is_Some (canvasRef polling)
  /\ (forall q, q ∈ [detection "chair" 0.95; detection "bottle" 0.5] ->
                qualifies q = false)
  /\ qualifies (detection "cup" 0.8) = true
  /\ scannedItem
       (step polling
          (DetectResolved 0
             ([detection "chair" 0.95; detection "bottle" 0.5]
              ++ detection "cup" 0.8
              :: [detection "bottle" 0.99; detection "cup" 0.9])))
     = Some "cup".
Proof.
  assert (Hi : in_flight polling !! 0
               = Some {| r_model := Some CocoSsd; r_detectionInterval := None |})
    by reflexivity.
  assert (Hc : is_Some (canvasRef polling)) by (eexists; reflexivity).
  assert (Hb : forall q,
             q ∈ [detection "chair" 0.95; detection "bottle" 0.5] ->
             qualifies q = false).
  { intros q Hq. apply list_elem_of_In in Hq. simpl in Hq.
    destruct Hq as [<- | [<- | []]]; reflexivity. }
  assert (Hp : qualifies (detection "cup" 0.8) = true) by reflexivity.
  split; [exact Hi |]. split; [exact Hc |]. split; [exact Hb |].
  split; [exact Hp |].
  exact (first_qualifying_recorded polling 0 _ _
           [detection "bottle" 0.99; detection "cup" 0.9] _ Hi Hc Hb Hp).
Defined.

(** ** Reset *)

(** What [reset()] does deliver. From the results view, it leaves no
    scanned item, puts the scanner back on the page with a video element and
    a canvas on which nothing is drawn, and the Start button answers
    again. *)
Theorem reset_clears (w : World) :
  results_shown w = true ->
  let w' := reset w in
  scannedItem w' = None
  /\ canvasRef w' = Some []
  /\ is_Some (videoRef w')
  /\ scanner_shown w' = true
  /\ handle ClickStart w' = startDetection_call w'.
Proof.
  intros Hs w'. subst w'. unfold reset, step, handle. rewrite Hs.
  unfold results_shown in Hs. apply andb_prop in Hs as [Hl _].
  apply negb_true_iff in Hl.
  assert (E : scanner_shown (resetScanner w) = true).
  { unfold scanner_shown, resetScanner. destruct w; simpl in *.
    destruct canvasRef0; simpl; rewrite Hl; reflexivity. }
  unfold commit. rewrite E.
  set (w1 := set_videoRef _ _).
  assert (E1 : scanner_shown w1 = true) by exact E.
  split; [unfold w1, resetScanner; destruct w, canvasRef0; reflexivity |].
  split; [unfold w1, resetScanner; destruct w, canvasRef0; reflexivity |].
  split; [eexists; reflexivity |].
  split; [exact E1 |].
  unfold handle. rewrite E1. reflexivity.
Qed.

Lemma reset_clears_witness :
  results_shown matched = true
  /\ scannedItem matched = Some "bottle"
  /\ scannedItem (reset matched) = None
  /\ canvasRef (reset matched) = Some []
  /\ scanner_shown (reset matched) = true.
Proof.
  assert (Hs : results_shown matched = true) by reflexivity.
  destruct (reset_clears matched Hs) as (H1 & H2 & _ & H4 & _).
  split; [exact Hs |]. split; [reflexivity |].
  split; [exact H1 |]. split; [exact H2 | exact H4].
Defined.

(** [reset()] is back in the idle state exactly when no timer was running
    in the results view: it clears none. *)
Lemma reset_idle_iff (w : World) :
  results_shown w = true -> Idle (reset w) <-> active_timers w = 0.
Proof.
  intros Hs. destruct (reset_clears w Hs) as (Hn & _ & _ & Hshown & _).
  assert (Ht : timers (reset w) = timers w).
  { unfold reset, step, handle. rewrite Hs, commit_timers.
    unfold resetScanner. fields. destruct (canvasRef w); reflexivity. }
  unfold Idle, active_timers. rewrite Ht. split.
  - intros (_ & _ & H). exact H.
  - intros H. split; [exact Hshown |]. split; [exact Hn | exact H].
Qed.

(** C9, at the scenario of the specification: the match of a bottle at
    0.75, then [reset()]. The label is cleared, the canvas is empty and
    Start is on the page, but the state is not idle: the timer that the
    match left running is running still, and its next tick polls the new
    video without a [start()]. *)
Theorem reset_after_match_not_idle :
  results_shown matched = true
  /\ scannedItem (reset matched) = None
  /\ canvasRef (reset matched) = Some []
  /\ scanner_shown (reset matched) = true
  /\ active_timers (reset matched) = 1
  /\ ~ Idle (reset matched)
  /\ videoRef (reset matched) = Some {| srcObject := None |}
  /\ in_flight (step (reset matched) (Tick 1))
     = [ {| r_model := Some CocoSsd; r_detectionInterval := None |} ].
Proof.
  assert (Ha : active_timers (reset matched) = 1) by (vm_compute; reflexivity).
  repeat split; try (vm_compute; reflexivity).
  intros (_ & _ & H). rewrite Ha in H. discriminate.
Qed.

(** ** Start *)

Lemma lookup_last_pending {A} (l : list A) (x : A) :
  (l ++ [x]) !! length l = Some x /\ delete (length l) (l ++ [x]) = l.
Proof.
  split; [apply list_lookup_middle; reflexivity |].
  rewrite delete_middle. apply app_nil_r.
Qed.

(** The click of [start()]: with [navigator.mediaDevices] the call waits
    for the camera; without it the [catch] block runs at once. *)
Lemma click_start w :
  rendered w -> scanner_shown w = true ->
  step w ClickStart
  = if mediaDevices w then set_pending_media (pending_media w ++ [render_of w]) w
    else startDetection_catch no_mediaDevices w.
Proof.
  intros H Hs. unfold step, handle. rewrite Hs. unfold startDetection_call.
  destruct (mediaDevices w);
    apply (commit_same_view w); fields; try reflexivity; assumption.
Qed.

(** [start()] refused: only [error] changes. *)
Lemma start_refused_world w message :
  rendered w -> scanner_shown w = true ->
  start_refused message w
  = set_error
      (Some ("Camera error: "
             +:+ (if mediaDevices w then message else no_mediaDevices))) w.
Proof.
  intros H Hs. unfold start_refused, run. simpl.
  rewrite (click_start w H Hs).
  destruct (mediaDevices w) eqn:Em.
  - unfold step, handle. fields.
    destruct (lookup_last_pending (pending_media w) (render_of w)) as [-> ->].
    unfold startDetection_catch.
    rewrite (commit_same_view w); fields; try reflexivity; try assumption.
  - unfold step, handle, startDetection_catch. fields.
    rewrite lookup_ge_None_2 by reflexivity.
    apply (commit_same_view w); fields; try reflexivity; assumption.
Qed.

(** [start()] granted: the stream is attached to the video, the timer in
    the state of the render that was clicked is cleared, and a new timer
    is set whose callback closes over that same render. *)
Lemma start_world w tracks :
  rendered w -> scanner_shown w = true -> mediaDevices w = true ->
  start tracks w = startDetection_resume (render_of w) tracks w.
Proof.
  intros H Hs Hm. unfold start, run. simpl.
  rewrite (click_start w H Hs), Hm.
  unfold step, handle. fields.
  destruct (lookup_last_pending (pending_media w) (render_of w)) as [-> ->].
  destruct (rendered_shown w H Hs) as [[v Ev] [c Ec]].
  assert (E : set_pending_media (pending_media w)
                (set_pending_media (pending_media w ++ [render_of w]) w) = w)
    by (destruct w; reflexivity).
  rewrite E.
  apply (commit_same_view w); try assumption;
    unfold startDetection_resume, setInterval, clearInterval, render_of;
    fields; rewrite ?Ev; destruct (detectionInterval w); fields;
    rewrite ?Ev, ?Ec; try reflexivity; split; intros _; eexists; reflexivity.
Qed.

Lemma resume_timers r tracks w :
  timers (startDetection_resume r tracks w)
  = <[next_timer w := r]>
      (match r_detectionInterval r with
       | Some t => delete t (timers w)
       | None => timers w
       end).
Proof.
  unfold startDetection_resume, setInterval, clearInterval. fields.
  destruct (videoRef w), (r_detectionInterval r); reflexivity.
Qed.

Lemma resume_next_timer r tracks w :
  next_timer (startDetection_resume r tracks w) = (next_timer w + 1)%positive.
Proof.
  unfold startDetection_resume, setInterval, clearInterval. fields.
  destruct (videoRef w), (r_detectionInterval r); reflexivity.
Qed.

Lemma resume_detectionInterval r tracks w :
  detectionInterval (startDetection_resume r tracks w) = Some (next_timer w).
Proof.
  unfold startDetection_resume, setInterval, clearInterval. fields.
  destruct (videoRef w), (r_detectionInterval r); reflexivity.
Qed.

(** C6. When the camera is refused (the promise of [getUserMedia] rejects)
    or unsupported ([navigator.mediaDevices] is missing), [start()] from the
    idle state shows the message of the error after [Camera error: ], and
    the state is idle still: no timer was scheduled, no item recorded,
    nothing waits on the camera, and a later [start()] that is granted
    begins polling. *)
Theorem camera_refused_stays_idle (w : World) (message : string) :
  rendered w -> Idle w ->
  let w' := start_refused message w in
  error w'
  = Some ("Camera error: "
          +:+ (if mediaDevices w then message else no_mediaDevices))
  /\ Idle w'
  /\ undisturbed w w'
  /\ next_timer w' = next_timer w
  /\ pending_media w' = pending_media w
  /\ (mediaDevices w = true ->
      forall tracks, active_timers (start tracks w') = 1).
Proof.
  intros H (Hs & Hn & Ht) w'.
  assert (Hw' : w' = set_error
                       (Some ("Camera error: "
                              +:+ (if mediaDevices w then message
                                   else no_mediaDevices))) w)
    by (apply start_refused_world; assumption).
  rewrite Hw'. clear Hw' w'.
  split; [reflexivity |]. split; [repeat split; assumption |].
  split; [repeat split |]. split; [reflexivity |]. split; [reflexivity |].
  intros Hm tracks. rewrite start_world; try assumption;
    [| apply (commit_same_view w); fields; try reflexivity; assumption].
  unfold active_timers in *. apply map_size_empty_inv in Ht.
  rewrite resume_timers. unfold render_of. fields. rewrite Ht.
  destruct (detectionInterval w);
    rewrite ?delete_empty, insert_empty; apply map_size_singleton.
Qed.

Lemma camera_refused_stays_idle_witness :
  rendered loaded /\ Idle loaded
  /\ error (start_refused "Permission denied" loaded)
     = Some "Camera error: Permission denied"
  /\ Idle (start_refused "Permission denied" loaded)
  /\ active_timers (start 1 (start_refused "Permission denied" loaded)) = 1.
Proof.
  assert (Hr : rendered loaded) by reflexivity.
  assert (Hi : Idle loaded) by (repeat split).
  destruct (camera_refused_stays_idle loaded "Permission denied" Hr Hi)
    as (He & Hi' & _ & _ & _ & Hagain).
  split; [exact Hr |]. split; [exact Hi |]. split; [exact He |].
  split; [exact Hi' |]. exact (Hagain eq_refl 1).
Defined.

(** ** Overlapping polls *)

(** With the poll of one tick still in flight, the next tick of the same
    timer starts a second one: [detectObjects] keeps no record of the call it
    is waiting for. *)
Lemma second_tick_overlaps :
  in_flight polling
  = [ {| r_model := Some CocoSsd; r_detectionInterval := None |} ]
  /\ in_flight (step polling (Tick 1))
     = [ {| r_model := Some CocoSsd; r_detectionInterval := None |};
         {| r_model := Some CocoSsd; r_detectionInterval := None |} ].
Proof. split; reflexivity. Qed.

(** C5, amended. Polling is re-entrant: while the scanner is on the page,
    every tick of an active timer whose callback holds the model starts a
    poll, whatever the number of polls still in flight, which grows by one;
    no tick is skipped because an earlier poll has not completed. *)
Theorem every_tick_polls (w : World) (t : positive) (r : Render) :
  rendered w -> scanner_shown w = true ->
  timers w !! t = Some r -> is_Some (r_model r) ->
  in_flight (step w (Tick t)) = in_flight w ++ [r]
  /\ length (in_flight (step w (Tick t))) = S (length (in_flight w)).
Proof.
  intros H Hs Ht Hm.
  rewrite (tick_starts_poll w t r H Hs Ht Hm). split; [reflexivity |].
  rewrite length_app. simpl. lia.
Qed.

Lemma every_tick_polls_witness :
  rendered polling /\ scanner_shown polling = true
  /\ timers polling !! 1%positive
     = Some {| r_model := Some CocoSsd; r_detectionInterval := None |}
  /\ length (in_flight polling) = 1
  /\ length (in_flight (step polling (Tick 1))) = 2.
Proof.
  assert (Hr : rendered polling) by reflexivity.
  assert (Hs : scanner_shown polling = true) by reflexivity.
  assert (Ht : timers polling !! 1%positive
               = Some {| r_model := Some CocoSsd; r_detectionInterval := None |})
    by reflexivity.
  assert (Hm : is_Some (r_model {| r_model := Some CocoSsd;
                                   r_detectionInterval := None |}))
    by (eexists; reflexivity).
  split; [exact Hr |]. split; [exact Hs |]. split; [exact Ht |].
  split; [reflexivity |].
  exact (proj2 (every_tick_polls polling 1 _ Hr Hs Ht Hm)).
Defined.

(** ** The recorded label *)

Lemma resume_scannedItem r predictions w :
  scannedItem (detectObjects_resume r predictions w)
  = match canvasRef w, find qualifies predictions with
    | Some _, Some p => Some (class p)
    | _, _ => scannedItem w
    end.
Proof.
  unfold detectObjects_resume, detectObjects_catch, stopCamera, clearInterval.
  fields.
  destruct (canvasRef w); [| reflexivity].
  destruct (find qualifies predictions); [| reflexivity].
  fields.
  destruct (r_detectionInterval r), (videoRef w) as [[[s |]] |]; reflexivity.
Qed.

Lemma handle_labelled e w : labelled w -> labelled (handle e w).
Proof.
  intros H. destruct e; unfold handle.
  - destruct (loading w); exact H.
  - destruct (loading w); exact H.
  - destruct (scanner_shown w); [| exact H].
    unfold startDetection_call. destruct (mediaDevices w); exact H.
  - destruct (pending_media w !! request); [| exact H].
    unfold startDetection_resume, setInterval, clearInterval. fields.
    destruct (videoRef w), (r_detectionInterval r); exact H.
  - destruct (pending_media w !! request); exact H.
  - destruct (timers w !! t) as [r |]; [| exact H].
    unfold detectObjects_call.
    destruct (r_model r), (videoRef w), (canvasRef w); exact H.
  - destruct (in_flight w !! poll0) as [r |]; [| exact H].
    intros l. rewrite resume_scannedItem. fields.
    destruct (canvasRef w); [| apply H].
    destruct (find qualifies predictions) as [p |] eqn:Hf; [| apply H].
    intros [= <-]. apply (find_qualifies_some _ _ Hf).
  - destruct (in_flight w !! poll0); exact H.
  - destruct (results_shown w); [| exact H].
    unfold resetScanner. fields. destruct (canvasRef w); intros l; discriminate.
Qed.

Lemma reachable_labelled w : reachable w -> labelled w.
Proof.
  intros H. induction H as [s | w e _ IH] using reachable_ind.
  - intros l. discriminate.
  - unfold step, labelled. rewrite commit_scannedItem.
    apply handle_labelled, IH.
Qed.

Lemma PROJECTS_bottle :
  exists ps, PROJECTS !! "bottle" = Some ps /\ ps <> [].
Proof. eexists. split; [vm_compute; reflexivity | discriminate]. Qed.

Lemma PROJECTS_cup :
  exists ps, PROJECTS !! "cup" = Some ps /\ ps <> [].
Proof. eexists. split; [vm_compute; reflexivity | discriminate]. Qed.

(** C10. Whatever led to it, a recorded scanned item is ["bottle"] or
    ["cup"], both keys of [PROJECTS], and the results view has at least one
    project card to show for it. *)
Theorem scanned_item_has_projects (w : World) (l : string) :
  reachable w -> scannedItem w = Some l ->
  (l = "bottle" \/ l = "cup")
  /\ exists ps, PROJECTS !! l = Some ps /\ ps <> [] /\ project_cards w = ps.
Proof.
  intros Hr Hl.
  assert (Hin : l = "bottle" \/ l = "cup").
  { apply includes_plasticItems, (reachable_labelled w Hr), Hl. }
  split; [exact Hin |].
  unfold project_cards. rewrite Hl. simpl.
  destruct Hin as [-> | ->];
    [destruct PROJECTS_bottle as (ps & E & Hne)
    | destruct PROJECTS_cup as (ps & E & Hne)];
    exists ps; rewrite E; repeat split; assumption.
Qed.

Lemma scanned_item_has_projects_witness :
  reachable matched /\ scannedItem matched = Some "bottle"
  /\ ("bottle" = "bottle" \/ "bottle" = "cup")
  /\ exists ps, PROJECTS !! "bottle" = Some ps /\ ps <> []
                /\ project_cards matched = ps.
Proof.
  assert (Hr : reachable matched).
  { unfold matched, detecting, loaded, start, poll.
    repeat apply reachable_run. apply reachable_init. }
  assert (Hl : scannedItem matched = Some "bottle") by reflexivity.
  split; [exact Hr |]. split; [exact Hl |].
  exact (scanned_item_has_projects matched "bottle" Hr Hl).
Defined.

(** ** After the match *)

Lemma reachable_matched_hidden w l :
  reachable w -> scannedItem w = Some l ->
  videoRef w = None /\ canvasRef w = None.
Proof.
  intros Hr Hl. apply rendered_hidden; [apply reachable_rendered, Hr |].
  unfold scanner_shown. rewrite Hl.
  assert (Hin : l = "bottle" \/ l = "cup")
    by (apply includes_plasticItems, (reachable_labelled w Hr), Hl).
  destruct Hin as [-> | ->]; simpl; apply andb_false_r.
Qed.

(** There is no test for a match that has happened: with two polls in
    flight, the second answer, handled before the render of the first match,
    finds the canvas on the page, runs the match again and puts its own label
    in the place of the first. *)
Lemma second_match_before_render :
  scannedItem
    (unrendered two_in_flight [DetectResolved 0 [detection "bottle" 0.75]])
  = Some "bottle"
  /\ scannedItem
       (unrendered two_in_flight
          [DetectResolved 0 [detection "bottle" 0.75];
           DetectResolved 0 [detection "cup" 0.9]])
     = Some "cup"
  /\ console
       (unrendered two_in_flight
          [DetectResolved 0 [detection "bottle" 0.75];
           DetectResolved 0 [detection "cup" 0.9]])
     = []
  /\ project_cards
       (commit
          (unrendered two_in_flight
             [DetectResolved 0 [detection "bottle" 0.75];
              DetectResolved 0 [detection "cup" 0.9]]))
     = default [] (PROJECTS !! "cup").
Proof. repeat split; vm_compute; reflexivity. Qed.

(** An event of polling, handled while neither the video nor the canvas is
    on the page. *)
Lemma polls_hidden e w :
  polls e -> videoRef w = None -> canvasRef w = None ->
  undisturbed w (handle e w)
  /\ canvasRef (handle e w) = None
  /\ loading (handle e w) = loading w.
Proof.
  intros He Ev Ec. destruct e; try contradiction; unfold handle.
  - destruct (timers w !! t) as [r |]; [| repeat split; assumption].
    unfold detectObjects_call. rewrite Ev.
    destruct (r_model r); repeat split; assumption.
  - destruct (in_flight w !! poll0) as [r |]; [| repeat split; assumption].
    unfold detectObjects_resume, detectObjects_catch. fields. rewrite Ec.
    repeat split; assumption.
  - destruct (in_flight w !! poll0) as [r |]; repeat split; assumption.
Qed.

Lemma unrendered_hidden es w :
  Forall polls es -> videoRef w = None -> canvasRef w = None ->
  undisturbed w (unrendered w es)
  /\ canvasRef (unrendered w es) = None
  /\ loading (unrendered w es) = loading w.
Proof.
  intros Hes. revert w. induction Hes as [| e es He _ IH]; intros w Ev Ec.
  - repeat split; assumption.
  - destruct (polls_hidden e w He Ev Ec) as (Hu & Hc & Hl).
    pose proof Hu as (_ & Hv & _). rewrite Ev in Hv.
    destruct (IH (handle e w) Hv Hc) as (Hu' & Hc' & Hl').
    cbn [unrendered fold_left]. fold (unrendered (handle e w) es).
    split; [exact (undisturbed_trans _ _ _ Hu Hu') |].
    split; [exact Hc' | congruence].
Qed.

Lemma run_hidden es w :
  Forall polls es -> rendered w -> videoRef w = None -> canvasRef w = None ->
  run w es = unrendered w es.
Proof.
  intros Hes. revert w. induction Hes as [| e es He _ IH]; intros w H Ev Ec.
  - reflexivity.
  - destruct (polls_hidden e w He Ev Ec) as ((Hs & Hv & _) & Hc & Hl).
    assert (E : step w e = handle e w).
    { apply (commit_same_view w); try assumption.
      - rewrite Hv. reflexivity.
      - rewrite Hc, Ec. reflexivity. }
    cbn [run unrendered fold_left]. rewrite E.
    apply IH; [rewrite <- E; apply step_rendered | congruence | exact Hc].
Qed.

(** C3, amended. Once the results are on the page, no poll triggers the
    match again. Whatever ticks, answers and failures of the model follow,
    with any predictions and with or without a render between them, the
    recorded label, the tracks, the timers and the stored handle are what
    they were, nothing is drawn, the page needs no new render, and a tick
    starts no poll. What keeps the match from running again is that the
    canvas is off the page, not a test of the recorded label. *)
Theorem match_once_rendered (w : World) (l : string) (es : list Event) :
  rendered w -> results_shown w = true -> scannedItem w = Some l ->
  Forall polls es ->
  scannedItem (unrendered w es) = Some l
  /\ undisturbed w (unrendered w es)
  /\ canvasRef (unrendered w es) = None
  /\ rendered (unrendered w es)
  /\ run w es = unrendered w es
  /\ forall t, step w (Tick t) = w.
Proof.
  intros H Hs Hl Hes.
  assert (Hhid : scanner_shown w = false).
  { unfold results_shown in Hs. unfold scanner_shown.
    apply andb_prop in Hs as [-> ->]. reflexivity. }
  destruct (rendered_hidden w H Hhid) as [Ev Ec].
  destruct (unrendered_hidden es w Hes Ev Ec) as (Hu & Hc & Hld).
  pose proof Hu as (Hitem & Hv & _).
  split; [rewrite Hitem; exact Hl |]. split; [exact Hu |].
  split; [exact Hc |].
  split.
  { apply (commit_same_view w); try assumption.
    - rewrite Hv. reflexivity.
    - rewrite Hc, Ec. reflexivity. }
  split; [apply run_hidden; assumption |].
  intros t. unfold step, handle.
  destruct (timers w !! t) as [r |]; [| exact H].
  unfold detectObjects_call. rewrite Ev. destruct (r_model r); exact H.
Qed.

Lemma match_once_rendered_witness :
  rendered matched_overlapping
  /\ results_shown matched_overlapping = true
  /\ scannedItem matched_overlapping = Some "bottle"
  /\ Forall polls [Tick 1; DetectResolved 0 [detection "cup" 0.9]; Tick 1]
  /\ in_flight matched_overlapping
     = [ {| r_model := Some CocoSsd; r_detectionInterval := None |} ]
  /\ scannedItem
       (unrendered matched_overlapping
          [Tick 1; DetectResolved 0 [detection "cup" 0.9]; Tick 1])
     = Some "bottle"
  /\ undisturbed matched_overlapping
       (unrendered matched_overlapping
          [Tick 1; DetectResolved 0 [detection "cup" 0.9]; Tick 1]).
Proof.
  assert (Hr : rendered matched_overlapping) by (vm_compute; reflexivity).
  assert (Hs : results_shown matched_overlapping = true)
    by (vm_compute; reflexivity).
  assert (Hl : scannedItem matched_overlapping = Some "bottle")
    by (vm_compute; reflexivity).
  assert (Hes : Forall polls
                  [Tick 1; DetectResolved 0 [detection "cup" 0.9]; Tick 1])
    by (repeat constructor).
  destruct (match_once_rendered matched_overlapping "bottle" _ Hr Hs Hl Hes)
    as (Hitem & Hu & _).
  split; [exact Hr |]. split; [exact Hs |]. split; [exact Hl |].
  split; [exact Hes |]. split; [vm_compute; reflexivity |].
  split; [exact Hitem | exact Hu].
Defined.

(** ** The timer after a match *)

(** C1, at the scenario of the specification: a first session whose poll
    returns a bottle at 0.75. The label is recorded, the track of the stream
    is stopped and the results are shown, but the timer that polled is still
    active: the callback reads [detectionInterval] from the render in which
    Start was clicked, where it is [null], so [clearInterval] is not
    reached. *)
Theorem first_match_keeps_timer :
  scannedItem matched = Some "bottle"
  /\ results_shown matched = true
  /\ live_tracks matched = 0
  /\ timers detecting !! 1%positive
     = Some {| r_model := Some CocoSsd; r_detectionInterval := None |}
  /\ timers matched = timers detecting
  /\ active_timers matched = 1
  /\ detectionInterval matched = Some 1%positive.
Proof. repeat split; vm_compute; reflexivity. Qed.

(** C4, at start, match, reset, start, match, reset, start. The second
    [start()] clears the timer of the first session, which its match left
    running. The match of the second session clears that same, dead handle
    again and stores [null], so the third [start()] finds nothing to clear:
    the timers of the second and of the third session run side by side. *)
Theorem third_start_two_timers :
  active_timers detecting_again = 1
  /\ detectionInterval matched_again = None
  /\ active_timers matched_again = 1
  /\ scanner_shown (reset matched_again) = true
  /\ active_timers detecting_thrice = 2
  /\ is_Some (timers detecting_thrice !! 2%positive)
  /\ is_Some (timers detecting_thrice !! 3%positive)
  /\ length (in_flight (run detecting_thrice [Tick 2; Tick 3])) = 2.
Proof.
  repeat split; try (vm_compute; reflexivity); eexists; vm_compute; reflexivity.
Qed.

(** ** Why a match cancels no timer

    A timer callback closes over the render in which Start was clicked.
    The handle that render holds was cleared by [startDetection] just before
    the timer was set, and handles are not used twice: by the time a poll
    matches, the handle it clears is dead. *)

Lemma handles_ok_init supported : handles_ok (init supported).
Proof.
  split; simpl; intros *.
  - intros H. rewrite lookup_empty in H. discriminate.
  - discriminate.
  - intros H. apply elem_of_nil in H. contradiction.
  - intros H. rewrite lookup_empty in H. discriminate.
  - intros H. apply elem_of_nil in H. contradiction.
Qed.

(** Clearing a timer keeps the handles in order. *)
Lemma handles_ok_clear w t :
  handles_ok w -> handles_ok (clearInterval t w).
Proof.
  intros [Ha Hb Hc Hd He]. unfold clearInterval.
  split; unfold dead_handle; fields.
  - intros t' r H. apply lookup_delete_Some in H as [_ H]. eapply Ha, H.
  - exact Hb.
  - exact Hc.
  - intros t' r H d Hr. apply lookup_delete_Some in H as [_ H].
    destruct (Hd t' r H d Hr) as [Hn Hlt].
    split; [| exact Hlt]. apply lookup_delete_None. right. exact Hn.
  - intros r H d Hr. destruct (He r H d Hr) as [Hn Hlt].
    split; [| exact Hlt]. apply lookup_delete_None. right. exact Hn.
Qed.

Lemma handles_ok_resume w r tracks :
  handles_ok w ->
  (forall d, r_detectionInterval r = Some d -> (d < next_timer w)%positive) ->
  handles_ok (startDetection_resume r tracks w).
Proof.
  intros [Ha Hb Hc Hd He] Hr.
  assert (Hpm : pending_media (startDetection_resume r tracks w)
                = pending_media w).
  { unfold startDetection_resume, setInterval, clearInterval. fields.
    destruct (videoRef w), (r_detectionInterval r); reflexivity. }
  assert (Hif : in_flight (startDetection_resume r tracks w) = in_flight w).
  { unfold startDetection_resume, setInterval, clearInterval. fields.
    destruct (videoRef w), (r_detectionInterval r); reflexivity. }
  assert (Hold : forall t' r', 
             match r_detectionInterval r with
             | Some t => delete t (timers w)
             | None => timers w
             end !! t' = Some r' -> timers w !! t' = Some r').
  { intros t' r'. destruct (r_detectionInterval r); [| tauto].
    intros H. apply lookup_delete_Some in H as [_ H]. exact H. }
  assert (Hgone : forall d,
             timers w !! d = None -> (d < next_timer w)%positive ->
             <[next_timer w := r]>
               (match r_detectionInterval r with
                | Some t => delete t (timers w)
                | None => timers w
                end) !! d = None).
  { intros d Hn Hlt. rewrite lookup_insert_ne by lia.
    destruct (r_detectionInterval r); [| exact Hn].
    apply lookup_delete_None. right. exact Hn. }
  split; unfold dead_handle;
    rewrite ?resume_next_timer, ?resume_detectionInterval, ?Hpm, ?Hif,
      ?resume_timers.
  - intros t' r' H.
    apply lookup_insert_Some in H as [[<- _] | [_ H]]; [lia |].
    apply Hold, Ha in H. lia.
  - intros d [= <-]. lia.
  - intros r' d Hin Hd'. pose proof (Hc r' d Hin Hd'). lia.
  - intros t' r' H d Hd'.
    apply lookup_insert_Some in H as [[<- <-] | [_ H]].
    + pose proof (Hr d Hd') as Hlt. split; [| lia].
      rewrite lookup_insert_ne by lia.
      rewrite Hd'. apply lookup_delete_eq.
    + apply Hold in H. destruct (Hd t' r' H d Hd') as [Hn Hlt].
      split; [apply Hgone; assumption | lia].
  - intros r' Hin d Hd'. destruct (He r' Hin d Hd') as [Hn Hlt].
    split; [apply Hgone; assumption | lia].
Qed.

Lemma handles_ok_handle e w : handles_ok w -> handles_ok (handle e w).
Proof.
  intros H. pose proof H as [Ha Hb Hc Hd He]. destruct e; unfold handle.
  - destruct (loading w); [| exact H]. split; assumption.
  - destruct (loading w); [| exact H]. split; assumption.
  - destruct (scanner_shown w); [| exact H].
    unfold startDetection_call. destruct (mediaDevices w).
    + split; try assumption. fields. intros r d Hin Hr.
      apply elem_of_app in Hin as [Hin | Hin]; [eapply Hc; eassumption |].
      apply list_elem_of_singleton in Hin. subst r. apply Hb, Hr.
    + split; assumption.
  - destruct (pending_media w !! request) as [r |] eqn:E; [| exact H].
    apply handles_ok_resume.
    + split; try assumption. fields. intros r' d Hin.
      apply Hc. eapply list_elem_of_delete_inv, Hin.
    + intros d Hr. apply (Hc r d); [| exact Hr].
      eapply list_elem_of_lookup_2, E.
  - destruct (pending_media w !! request); [| exact H].
    split; try assumption. fields. intros r' d Hin.
    apply Hc. eapply list_elem_of_delete_inv, Hin.
  - destruct (timers w !! t) as [r |] eqn:E; [| exact H].
    unfold detectObjects_call.
    destruct (r_model r), (videoRef w), (canvasRef w); try exact H.
    split; try assumption. fields. intros r' Hin.
    apply elem_of_app in Hin as [Hin | Hin]; [apply He, Hin |].
    apply list_elem_of_singleton in Hin. subst r'. eapply Hd, E.
  - destruct (in_flight w !! poll0) as [r |] eqn:E; [| exact H].
    assert (H0 : handles_ok (set_in_flight (delete poll0 (in_flight w)) w)).
    { split; try assumption. fields. intros r' Hin.
      apply He. eapply list_elem_of_delete_inv, Hin. }
    unfold detectObjects_resume. fields.
    destruct (canvasRef w); [| destruct H0; split; assumption].
    destruct (find qualifies predictions).
    2: { destruct H0; split; assumption. }
    set (w1 := stopCamera _).
    assert (H1 : handles_ok w1).
    { unfold w1, stopCamera. fields.
      destruct (videoRef w) as [[[s |]] |]; destruct H0; split; assumption. }
    destruct (r_detectionInterval r) as [d |]; [| exact H1].
    destruct (handles_ok_clear w1 d H1) as [Ha' Hb' Hc' Hd' He'].
    split; try assumption. fields. discriminate.
  - destruct (in_flight w !! poll0); [| exact H].
    split; try assumption. fields. intros r' Hin.
    apply He. eapply list_elem_of_delete_inv, Hin.
  - destruct (results_shown w); [| exact H].
    unfold resetScanner. fields. destruct (canvasRef w); split; assumption.
Qed.

Lemma handles_ok_commit w : handles_ok w -> handles_ok (commit w).
Proof.
  intros [Ha Hb Hc Hd He].
  split; unfold dead_handle in *; commit_fields; assumption.
Qed.

Lemma reachable_handles_ok w : reachable w -> handles_ok w.
Proof.
  intros H. induction H as [s | w e _ IH] using reachable_ind.
  - apply handles_ok_init.
  - apply handles_ok_commit, handles_ok_handle, IH.
Qed.

(** In no reachable world does the completion of a poll, with whatever
    predictions, cancel a timer. *)
Lemma match_cancels_no_timer w i predictions :
  reachable w -> timers (step w (DetectResolved i predictions)) = timers w.
Proof.
  intros Hr. unfold step, handle. commit_fields.
  destruct (in_flight w !! i) as [r |] eqn:E; [| reflexivity].
  unfold detectObjects_resume, detectObjects_catch, stopCamera, clearInterval.
  fields.
  destruct (canvasRef w); [| reflexivity].
  destruct (find qualifies predictions); [| reflexivity].
  destruct (r_detectionInterval r) as [d |] eqn:Ed;
    destruct (videoRef w) as [[[s |]] |]; fields; try reflexivity;
    apply delete_id;
    eapply (in_flight_dead w (reachable_handles_ok w Hr));
    [eapply list_elem_of_lookup_2, E | exact Ed
    | eapply list_elem_of_lookup_2, E | exact Ed
    | eapply list_elem_of_lookup_2, E | exact Ed].
Qed.

(** Two clicks on Start before the camera answers: both calls read [null]
    from the render they were clicked in, clear nothing, and leave two
    timers and two live streams, of which the video shows the second. *)
Example double_click_two_timers :
  active_timers
    (run loaded [ClickStart; ClickStart; CameraGranted 0 1; CameraGranted 0 1])
  = 2
  /\ live_tracks
       (run loaded [ClickStart; ClickStart; CameraGranted 0 1; CameraGranted 0 1])
     = 2.
Proof. split; vm_compute; reflexivity. Qed.

(** A second [start()] replaces the stream of the video without stopping
    it: the match that follows stops the tracks of the second stream only. *)
Example second_start_leaks_stream :
  live_tracks (start 1 detecting) = 2
  /\ live_tracks (poll 2 [detection "bottle" 0.75] (start 1 detecting)) = 1
  /\ scannedItem (poll 2 [detection "bottle" 0.75] (start 1 detecting))
     = Some "bottle".
Proof. repeat split; vm_compute; reflexivity. Qed.

(** The other scenarios of the specification. *)
Example chair_no_match :
  poll 1 [detection "chair" 0.95] detecting
  = set_canvasRef (Some (drawPredictions [detection "chair" 0.95])) detecting.
Proof. vm_compute. reflexivity. Qed.

Example camera_rejected :
  start_refused "Permission denied" loaded
  = set_error (Some "Camera error: Permission denied") loaded.
Proof. vm_compute. reflexivity. Qed.

(** ** getYouTubeThumbnail *)

Lemma strip_app p s r : strip p s = Some r -> s = p +:+ r.
Proof.
  revert s. induction p as [| a p IH]; intros s; simpl.
  - intros [= ->]. reflexivity.
  - destruct s as [| b s]; [discriminate |].
    destruct (Ascii.eqb_spec a b) as [-> | _]; [| discriminate].
    intros H. rewrite (IH s H). reflexivity.
Qed.

Lemma append_cons (x : ascii) (a b : string) :
  String x a +:+ b = String x (a +:+ b).
Proof. reflexivity. Qed.

Lemma append_assoc (a b c : string) : (a +:+ b) +:+ c = a +:+ b +:+ c.
Proof.
  induction a as [| x a IH]; [reflexivity |].
  rewrite !append_cons, IH. reflexivity.
Qed.

Lemma id_run_prefix s : exists post, s = id_run s +:+ post.
Proof.
  induction s as [| c s [post IH]]; simpl.
  - exists "". reflexivity.
  - destruct (Ascii.eqb c "&" || Ascii.eqb c "?")%char.
    + exists (String c s). reflexivity.
    + exists post. rewrite append_cons, <- IH. reflexivity.
Qed.

Lemma id_run_separator_free s : separator_free (id_run s).
Proof.
  induction s as [| c s IH]; intros n x; simpl.
  - destruct n; discriminate.
  - destruct (Ascii.eqb_spec c "&") as [-> | Ha]; [destruct n; discriminate |].
    destruct (Ascii.eqb_spec c "?") as [-> | Hq]; [destruct n; discriminate |].
    simpl. destruct n as [| n]; [intros [= <-]; split; assumption | apply IH].
Qed.

(** What the capture group returns is a non-empty run of id characters at
    the start of what it was given. *)
Lemma capture_shape s id :
  capture s = Some id ->
  id <> "" /\ separator_free id /\ exists post, s = id +:+ post.
Proof.
  unfold capture. pose proof (id_run_separator_free s) as Hf.
  destruct (id_run_prefix s) as [post Hp].
  destruct (id_run s) as [| c r] eqn:E; [discriminate |].
  intros [= <-]. split; [discriminate |]. split; [exact Hf |].
  exists post. exact Hp.
Qed.

Lemma strip_capture_shape p s id :
  strip p s ≫= capture = Some id ->
  id <> "" /\ separator_free id /\ exists post, s = p +:+ id +:+ post.
Proof.
  destruct (strip p s) as [r |] eqn:E; cbn [mbind option_bind]; [| discriminate].
  intros H. destruct (capture_shape r id H) as (Hn & Hf & post & ->).
  split; [exact Hn |]. split; [exact Hf |].
  exists post. apply strip_app, E.
Qed.

Lemma watch_tail_shape s id :
  watch_tail s = Some id ->
  id <> "" /\ separator_free id /\ exists pre post, s = pre +:+ id +:+ post.
Proof.
  induction s as [| c s IH]; [discriminate |]. cbn [watch_tail].
  destruct (if line_terminator (String c s) then None else watch_tail s)
    as [id' |] eqn:E.
  - intros [= ->]. destruct (line_terminator (String c s)); [discriminate |].
    destruct (IH E) as (Hn & Hf & pre & post & ->).
    split; [exact Hn |]. split; [exact Hf |].
    exists (String c pre), post. reflexivity.
  - intros H.
    destruct (strip_capture_shape "&v=" (String c s) id H) as (Hn & Hf & post & ->).
    split; [exact Hn |]. split; [exact Hf |].
    exists "&v=", post. reflexivity.
Qed.

(** A match at the start of [s]: the id, and the host name it follows. *)
Lemma match_here_shape s id :
  match_here s = Some id ->
  id <> "" /\ separator_free id
  /\ (exists pre post, s = pre +:+ id +:+ post)
  /\ (exists post, s = "youtu.be/" +:+ post \/ s = "youtube.com/" +:+ post).
Proof.
  unfold match_here, first_some.
  destruct (strip "youtu.be/" s ≫= capture) as [id1 |] eqn:E1.
  { intros [= ->].
    destruct (strip_capture_shape _ _ _ E1) as (Hn & Hf & post & ->).
    split; [exact Hn |]. split; [exact Hf |].
    split; [exists "youtu.be/", post; reflexivity |].
    exists (id +:+ post). left. reflexivity. }
  destruct (strip "youtube.com/" s) as [r |] eqn:E2;
    cbn [mbind option_bind]; [| discriminate].
  apply strip_app in E2. subst s. clear E1.
  assert (Hhost : exists post,
             "youtube.com/" +:+ r = "youtu.be/" +:+ post
             \/ "youtube.com/" +:+ r = "youtube.com/" +:+ post)
    by (exists r; right; reflexivity).
  assert (Hwrap : forall pre post,
             r = pre +:+ id +:+ post ->
             exists pre' post', "youtube.com/" +:+ r = pre' +:+ id +:+ post').
  { intros pre post ->. exists ("youtube.com/" +:+ pre), post.
    rewrite append_assoc. reflexivity. }
  destruct (strip "embed/" r ≫= capture) as [x |] eqn:Ea.
  { intros [= ->].
    destruct (strip_capture_shape _ _ _ Ea) as (Hn & Hf & post & Hr).
    split; [exact Hn |]. split; [exact Hf |].
    split; [exact (Hwrap "embed/" post Hr) | exact Hhost]. }
  destruct (strip "v/" r ≫= capture) as [x |] eqn:Eb.
  { intros [= ->].
    destruct (strip_capture_shape _ _ _ Eb) as (Hn & Hf & post & Hr).
    split; [exact Hn |]. split; [exact Hf |].
    split; [exact (Hwrap "v/" post Hr) | exact Hhost]. }
  destruct (strip "watch?v=" r ≫= capture) as [x |] eqn:Ec.
  { intros [= ->].
    destruct (strip_capture_shape _ _ _ Ec) as (Hn & Hf & post & Hr).
    split; [exact Hn |]. split; [exact Hf |].
    split; [exact (Hwrap "watch?v=" post Hr) | exact Hhost]. }
  destruct (strip "watch?" r) as [q |] eqn:Ed;
    cbn [mbind option_bind]; [| discriminate].
  apply strip_app in Ed.
  destruct q as [| c q]; [discriminate |].
  destruct (line_terminator (String c q)); [discriminate |].
  intros H. destruct (watch_tail_shape q id H) as (Hn & Hf & pre & post & ->).
  split; [exact Hn |]. split; [exact Hf |]. split; [| exact Hhost].
  apply (Hwrap ("watch?" +:+ String c pre) post).
  rewrite Ed. reflexivity.
Qed.

Lemma videoId_shape url id :
  videoId url = Some id ->
  id <> "" /\ separator_free id
  /\ (exists pre post, url = pre +:+ id +:+ post)
  /\ (exists pre post, url = pre +:+ "youtu.be/" +:+ post
                       \/ url = pre +:+ "youtube.com/" +:+ post).
Proof.
  induction url as [| c url IH].
  - simpl. discriminate.
  - cbn [videoId]. destruct (match_here (String c url)) as [x |] eqn:E.
    + intros [= ->].
      destruct (match_here_shape _ _ E) as (Hn & Hf & Hsub & post & Hhost).
      split; [exact Hn |]. split; [exact Hf |]. split; [exact Hsub |].
      exists "", post. exact Hhost.
    + intros H. destruct (IH H) as (Hn & Hf & (pre & post & Hsub) & pre' & post' & Hhost).
      split; [exact Hn |]. split; [exact Hf |]. split.
      * exists (String c pre), post. rewrite Hsub. reflexivity.
      * exists (String c pre'), post'.
        destruct Hhost as [-> | ->]; [left | right]; reflexivity.
Qed.

(** X1. A thumbnail address is the fixed prefix and suffix around a video
    id that is not empty, holds no [&] and no [?], and is a piece of the
    url that was given. *)
Theorem thumbnail_shape (url t : string) :
  getYouTubeThumbnail url = Some t ->
  exists id,
    t = "https://img.youtube.com/vi/" +:+ id +:+ "/mqdefault.jpg"
    /\ id <> "" /\ separator_free id
    /\ exists pre post, url = pre +:+ id +:+ post.
Proof.
  unfold getYouTubeThumbnail. destruct (videoId url) as [id |] eqn:E; [| discriminate].
  intros [= <-]. exists id.
  destruct (videoId_shape url id E) as (Hn & Hf & Hsub & _).
  split; [reflexivity |]. split; [exact Hn |]. split; [exact Hf | exact Hsub].
Qed.

Lemma thumbnail_shape_witness :
  getYouTubeThumbnail "https://youtu.be/9HIC__5x404?t=42"
  = Some "https://img.youtube.com/vi/9HIC__5x404/mqdefault.jpg"
  /\ exists id,
       "https://img.youtube.com/vi/9HIC__5x404/mqdefault.jpg"
       = "https://img.youtube.com/vi/" +:+ id +:+ "/mqdefault.jpg"
       /\ id <> "" /\ separator_free id
       /\ exists pre post,
            "https://youtu.be/9HIC__5x404?t=42" = pre +:+ id +:+ post.
Proof.
  assert (H : getYouTubeThumbnail "https://youtu.be/9HIC__5x404?t=42"
              = Some "https://img.youtube.com/vi/9HIC__5x404/mqdefault.jpg")
    by reflexivity.
  split; [exact H |]. exact (thumbnail_shape _ _ H).
Defined.

(** X2. A thumbnail is produced only for a url that holds [youtu.be/] or
    [youtube.com/] somewhere; the pattern is not anchored, so the host
    name may stand anywhere in the url. *)
Theorem thumbnail_only_for_youtube (url t : string) :
  getYouTubeThumbnail url = Some t ->
  exists pre post,
    url = pre +:+ "youtu.be/" +:+ post \/ url = pre +:+ "youtube.com/" +:+ post.
Proof.
  unfold getYouTubeThumbnail. destruct (videoId url) as [id |] eqn:E; [| discriminate].
  intros _. destruct (videoId_shape url id E) as (_ & _ & _ & Hhost). exact Hhost.
Qed.

Lemma thumbnail_only_for_youtube_witness :
  getYouTubeThumbnail "https://example.org/?u=youtube.com/v/abc"
  = Some "https://img.youtube.com/vi/abc/mqdefault.jpg"
  /\ exists pre post,
       "https://example.org/?u=youtube.com/v/abc" = pre +:+ "youtu.be/" +:+ post
       \/ "https://example.org/?u=youtube.com/v/abc"
          = pre +:+ "youtube.com/" +:+ post.
Proof.
  assert (H : getYouTubeThumbnail "https://example.org/?u=youtube.com/v/abc"
              = Some "https://img.youtube.com/vi/abc/mqdefault.jpg")
    by reflexivity.
  split; [exact H |]. exact (thumbnail_only_for_youtube _ _ H).
Defined.

Lemma separator_free_cons c s :
  separator_free (String c s) ->
  (Ascii.eqb c "&" || Ascii.eqb c "?")%char = false /\ separator_free s.
Proof.
  intros H. split.
  - destruct (H 0 c eq_refl) as [Ha Hq].
    apply Ascii.eqb_neq in Ha. apply Ascii.eqb_neq in Hq.
    rewrite Ha, Hq. reflexivity.
  - intros n x Hn. apply (H (S n) x). exact Hn.
Qed.

Lemma id_run_stops rest : ends_id rest -> id_run rest = "".
Proof. intros [-> | [r [-> | ->]]]; reflexivity. Qed.

Lemma id_run_app id rest :
  separator_free id -> ends_id rest -> id_run (id +:+ rest) = id.
Proof.
  intros Hf He. induction id as [| c id IH].
  - apply id_run_stops, He.
  - destruct (separator_free_cons c id Hf) as [Hc Hf'].
    rewrite append_cons. cbn [id_run]. rewrite Hc, (IH Hf'). reflexivity.
Qed.

Lemma capture_app id rest :
  id <> "" -> separator_free id -> ends_id rest ->
  capture (id +:+ rest) = Some id.
Proof.
  intros Hn Hf He. unfold capture. rewrite (id_run_app id rest Hf He).
  destruct id; [contradiction | reflexivity].
Qed.

Lemma videoId_link_forms host id rest :
  host ∈ link_forms -> id <> "" -> separator_free id -> ends_id rest ->
  videoId (host +:+ id +:+ rest) = Some id.
Proof.
  intros Hh Hn Hf He. pose proof (capture_app id rest Hn Hf He) as Hc.
  unfold link_forms in Hh. apply list_elem_of_In in Hh. simpl in Hh.
  destruct Hh as [<- | [<- | [<- | [<- | []]]]];
    rewrite !append_cons; change ("" +:+ id +:+ rest) with (id +:+ rest);
    cbn -[capture String.append]; try unfold match_here;
    cbn -[capture String.append]; rewrite Hc; reflexivity.
Qed.

(** X3. Round trip. A link in one of the four forms the pattern names, made
    of a video id that is not empty and holds no [&] and no [?], and
    followed by nothing or by further parameters, gives the thumbnail
    address of that very id. *)
Theorem thumbnail_round_trip (host id rest : string) :
  host ∈ link_forms -> id <> "" -> separator_free id -> ends_id rest ->
  getYouTubeThumbnail (host +:+ id +:+ rest)
  = Some ("https://img.youtube.com/vi/" +:+ id +:+ "/mqdefault.jpg").
Proof.
  intros Hh Hn Hf He. unfold getYouTubeThumbnail.
  rewrite (videoId_link_forms host id rest Hh Hn Hf He). reflexivity.
Qed.

Lemma thumbnail_round_trip_witness :
  "https://www.youtube.com/watch?v=" ∈ link_forms
  /\ "5keP9lY5VII" <> ""
  /\ separator_free "5keP9lY5VII"
  /\ ends_id "&t=3"
  /\ getYouTubeThumbnail
       ("https://www.youtube.com/watch?v=" +:+ "5keP9lY5VII" +:+ "&t=3")
     = Some ("https://img.youtube.com/vi/" +:+ "5keP9lY5VII" +:+ "/mqdefault.jpg").
Proof.
  assert (Hh : "https://www.youtube.com/watch?v=" ∈ link_forms).
  { apply list_elem_of_In. simpl. tauto. }
  assert (Hn : "5keP9lY5VII" <> "") by discriminate.
  assert (Hf : separator_free "5keP9lY5VII").
  { intros n c H.
    repeat (destruct n as [| n];
            [injection H as <-; split; discriminate |]).
    discriminate. }
  assert (He : ends_id "&t=3") by (right; exists "t=3"; left; reflexivity).
  split; [exact Hh |]. split; [exact Hn |]. split; [exact Hf |].
  split; [exact He |].
  exact (thumbnail_round_trip _ _ _ Hh Hn Hf He).
Defined.

(** ** What the handlers never undo *)

(** Every handler, unfolded down to the fields it writes. *)
Ltac handlers :=
  unfold handle, loadModel_resume, loadModel_catch, startDetection_call,
    startDetection_catch, startDetection_resume, detectObjects_call,
    detectObjects_resume, detectObjects_catch, resetScanner, stopCamera,
    setInterval, clearInterval; fields.

Ltac split_cases :=
  repeat match goal with
         | |- context [match ?x with _ => _ end] => destruct x eqn:?; fields
         end.

Lemma handle_error e w : is_Some (error w) -> is_Some (error (handle e w)).
Proof.
  intros H. destruct e; handlers; split_cases;
    first [exact H | eexists; reflexivity].
Qed.

Lemma run_error w es : is_Some (error w) -> is_Some (error (run w es)).
Proof.
  revert w. induction es as [| e es IH]; intros w H; [exact H |].
  simpl. apply IH. unfold step. rewrite commit_error. apply handle_error, H.
Qed.

(** X4. No handler clears [error]: a message that is on the page stays on
    the page, or gives way to a later message, whatever happens next, a
    granted [start()] included. *)
Theorem error_never_cleared (w : World) (es : list Event) :
  is_Some (error w) -> is_Some (error (run w es)).
Proof. apply run_error. Qed.

Lemma error_never_cleared_witness :
  is_Some (error refused)
  /\ active_timers (start 1 refused) = 1
  /\ is_Some (error (run refused [ClickStart; CameraGranted 0 1; Tick 1])).
Proof.
  assert (H : is_Some (error refused)) by (eexists; reflexivity).
  split; [exact H |]. split; [reflexivity |].
  exact (error_never_cleared refused
           [ClickStart; CameraGranted 0 1; Tick 1] H).
Defined.

(** ** Before the model has settled *)

Lemma handle_loading e w : loading (handle e w) = true -> loading w = true.
Proof.
  destruct e; handlers; split_cases; intros H; congruence.
Qed.

Lemma handle_init e s : loading (handle e (init s)) = true -> handle e (init s) = init s.
Proof.
  destruct e; unfold handle; cbn [loading init pending_media in_flight timers];
    rewrite ?lookup_empty, ?lookup_nil; try reflexivity.
  - intros H. discriminate H.
  - intros H. discriminate H.
Qed.

Lemma loading_world_is_init (w : World) :
  reachable w -> loading w = true -> w = init (mediaDevices w).
Proof.
  intros H. induction H as [s | w e _ IH] using reachable_ind; intros Hl.
  - reflexivity.
  - unfold step in *. rewrite commit_loading in Hl. commit_fields.
    pose proof (handle_loading e w Hl) as Hw. specialize (IH Hw).
    rewrite IH in Hl |- *.
    rewrite (handle_init e _ Hl). reflexivity.
Qed.

(** X5. While the model loads nothing can happen: no button is on the
    page, no timer runs and no promise of the component is pending, so a
    reachable world that still loads is the first render. *)
Theorem nothing_before_model (w : World) :
  reachable w -> loading w = true -> w = init (mediaDevices w).
Proof. apply loading_world_is_init. Qed.

Lemma nothing_before_model_witness :
  reachable (run (init true) [ClickStart; Tick 1; ClickReset; CameraGranted 0 1])
  /\ run (init true) [ClickStart; Tick 1; ClickReset; CameraGranted 0 1]
     = init true.
Proof.
  assert (Hr : reachable
                 (run (init true)
                    [ClickStart; Tick 1; ClickReset; CameraGranted 0 1]))
    by (apply reachable_run, reachable_init).
  split; [exact Hr |].
  exact (nothing_before_model _ Hr eq_refl).
Defined.

(** ** Counting live tracks *)

Lemma resume_streams r tracks w :
  streams (startDetection_resume r tracks w)
  = streams w ++ [replicate tracks live].
Proof.
  unfold startDetection_resume, setInterval, clearInterval. fields.
  destruct (videoRef w), (r_detectionInterval r); reflexivity.
Qed.

Lemma live_replicate n :
  length (filter (fun t => t = live) (replicate n live)) = n.
Proof.
  induction n as [| n IH]; [reflexivity |].
  cbn [replicate]. rewrite filter_cons_True by reflexivity.
  cbn [length]. rewrite IH. reflexivity.
Qed.

Lemma live_tracks_new_stream w w' n :
  streams w' = streams w ++ [replicate n live] ->
  live_tracks w' = live_tracks w + n.
Proof.
  intros H. unfold live_tracks. rewrite H, concat_app, filter_app, length_app.
  cbn [concat]. rewrite app_nil_r, live_replicate. reflexivity.
Qed.

(** ** The scenarios are reachable *)

Lemma reachable_start n w : reachable w -> reachable (start n w).
Proof. apply reachable_run. Qed.

Lemma reachable_poll t predictions w :
  reachable w -> reachable (poll t predictions w).
Proof. apply reachable_run. Qed.

Lemma reachable_loaded : reachable loaded.
Proof. exact (reachable_run _ [ModelLoaded] (reachable_init true)). Qed.

Lemma reachable_detecting : reachable detecting.
Proof. exact (reachable_start 1 loaded reachable_loaded). Qed.

Lemma reachable_matched : reachable matched.
Proof. exact (reachable_poll 1 _ detecting reachable_detecting). Qed.

Lemma reachable_detecting_again : reachable detecting_again.
Proof.
  exact (reachable_start 1 _ (reachable_step matched ClickReset reachable_matched)).
Qed.

Lemma reachable_matched_again : reachable matched_again.
Proof. exact (reachable_poll 2 _ detecting_again reachable_detecting_again). Qed.

Lemma reachable_detecting_thrice : reachable detecting_thrice.
Proof.
  exact (reachable_start 1 _
           (reachable_step matched_again ClickReset reachable_matched_again)).
Qed.

(** ** The model in the closures *)

Lemma closures_current_init s : closures_current (init s).
Proof.
  repeat split; cbn [init timers pending_media in_flight]; intros *.
  - rewrite lookup_empty. discriminate.
  - intros H. apply elem_of_nil in H. contradiction.
  - intros H. apply elem_of_nil in H. contradiction.
Qed.

Lemma closures_current_handle e w :
  reachable w -> closures_current w -> closures_current (handle e w).
Proof.
  intros Hr (Ht & Hp & Hf).
  destruct e; unfold handle.
  - destruct (loading w) eqn:El; [| repeat split; assumption].
    rewrite (loading_world_is_init w Hr El).
    repeat split; cbn; intros *.
    + rewrite lookup_empty. discriminate.
    + intros H. apply elem_of_nil in H. contradiction.
    + intros H. apply elem_of_nil in H. contradiction.
  - destruct (loading w); repeat split; assumption.
  - destruct (scanner_shown w); [| repeat split; assumption].
    unfold startDetection_call. destruct (mediaDevices w);
      [| repeat split; assumption].
    split; [exact Ht |]. split; [| exact Hf]. fields. intros r Hin.
    apply elem_of_app in Hin as [Hin | Hin]; [apply Hp, Hin |].
    apply list_elem_of_singleton in Hin. subst r. reflexivity.
  - destruct (pending_media w !! request) as [r |] eqn:E;
      [| repeat split; assumption].
    assert (Hm : model (startDetection_resume r tracks
                          (set_pending_media (delete request (pending_media w)) w))
                 = model w).
    { unfold startDetection_resume, setInterval, clearInterval. fields.
      destruct (videoRef w), (r_detectionInterval r); reflexivity. }
    assert (Hpm : pending_media (startDetection_resume r tracks
                          (set_pending_media (delete request (pending_media w)) w))
                  = delete request (pending_media w)).
    { unfold startDetection_resume, setInterval, clearInterval. fields.
      destruct (videoRef w), (r_detectionInterval r); reflexivity. }
    assert (Hif : in_flight (startDetection_resume r tracks
                          (set_pending_media (delete request (pending_media w)) w))
                  = in_flight w).
    { unfold startDetection_resume, setInterval, clearInterval. fields.
      destruct (videoRef w), (r_detectionInterval r); reflexivity. }
    unfold closures_current. rewrite Hm, Hpm, Hif, resume_timers. fields.
    split; [| split; [| exact Hf]].
    + intros t r' H. apply lookup_insert_Some in H as [[_ <-] | [_ H]].
      * apply Hp. eapply list_elem_of_lookup_2, E.
      * destruct (r_detectionInterval r); [| eapply Ht, H].
        apply lookup_delete_Some in H as [_ H]. eapply Ht, H.
    + intros r' Hin. apply Hp. eapply list_elem_of_delete_inv, Hin.
  - destruct (pending_media w !! request); [| repeat split; assumption].
    split; [exact Ht |]. split; [| exact Hf]. fields.
    intros r' Hin. apply Hp. eapply list_elem_of_delete_inv, Hin.
  - destruct (timers w !! t) as [r |] eqn:E; [| repeat split; assumption].
    unfold detectObjects_call.
    destruct (r_model r) eqn:Em, (videoRef w), (canvasRef w);
      try (repeat split; assumption).
    split; [exact Ht |]. split; [exact Hp |]. fields. intros r' Hin.
    apply elem_of_app in Hin as [Hin | Hin]; [apply Hf, Hin |].
    apply list_elem_of_singleton in Hin. subst r'. eapply Ht, E.
  - destruct (in_flight w !! poll0) as [r |] eqn:E; [| repeat split; assumption].
    assert (Hf' : forall r', r' ∈ delete poll0 (in_flight w) -> r_model r' = model w)
      by (intros r' Hin; apply Hf; eapply list_elem_of_delete_inv, Hin).
    unfold detectObjects_resume, detectObjects_catch, stopCamera, clearInterval.
    fields.
    destruct (canvasRef w); [| repeat split; assumption].
    destruct (find qualifies predictions); [| repeat split; assumption].
    destruct (r_detectionInterval r), (videoRef w) as [[[s |]] |]; fields;
      (split; [| split; assumption]); intros t' r' H; fields;
      try (apply lookup_delete_Some in H as [_ H]); eapply Ht, H.
  - destruct (in_flight w !! poll0); [| repeat split; assumption].
    split; [exact Ht |]. split; [exact Hp |]. fields.
    intros r' Hin. apply Hf. eapply list_elem_of_delete_inv, Hin.
  - destruct (results_shown w); [| repeat split; assumption].
    unfold resetScanner. fields. destruct (canvasRef w); repeat split; assumption.
Qed.

Lemma reachable_closures_current w : reachable w -> closures_current w.
Proof.
  intros H. induction H as [s | w e Hr IH] using reachable_ind.
  - apply closures_current_init.
  - unfold step, closures_current. commit_fields.
    apply closures_current_handle; assumption.
Qed.

(** X6. The model a closure holds is never stale: Start is on the page
    only once loading has ended, and the model does not change after that,
    so every timer callback, every click waiting for the camera and every
    poll in flight holds the model the state holds. With a loaded model and
    the scanner on the page, every tick of every active timer polls. *)
Theorem closures_hold_model (w : World) :
  reachable w ->
  closures_current w
  /\ (is_Some (model w) -> scanner_shown w = true ->
      forall t r, timers w !! t = Some r ->
                  in_flight (step w (Tick t)) = in_flight w ++ [r]).
Proof.
  intros Hr. pose proof (reachable_closures_current w Hr) as Hc.
  split; [exact Hc |]. intros Hm Hs t r Ht.
  apply tick_starts_poll; try assumption.
  - apply reachable_rendered, Hr.
  - destruct Hc as (Hc & _). rewrite (Hc t r Ht). exact Hm.
Qed.

Lemma closures_hold_model_witness :
  reachable detecting_thrice
  /\ closures_current detecting_thrice
  /\ length (in_flight (step detecting_thrice (Tick 2))) = 1.
Proof.
  pose proof reachable_detecting_thrice as Hr.
  assert (Hm : is_Some (model detecting_thrice))
    by (eexists; vm_compute; reflexivity).
  assert (Hs : scanner_shown detecting_thrice = true)
    by (vm_compute; reflexivity).
  assert (Ht : timers detecting_thrice !! 2%positive
               = Some {| r_model := Some CocoSsd;
                         r_detectionInterval := Some 1%positive |})
    by (vm_compute; reflexivity).
  destruct (closures_hold_model detecting_thrice Hr) as [Hc Htick].
  split; [exact Hr |]. split; [exact Hc |].
  rewrite (Htick Hm Hs 2%positive _ Ht). vm_compute. reflexivity.
Defined.

(** ** A model that failed to load *)

Lemma detection_off_step w e :
  reachable w -> detection_off w -> detection_off (step w e).
Proof.
  intros Hr (Hl & Hm & Hs & Hf).
  destruct (reachable_closures_current w Hr) as (Ht & _).
  unfold step, detection_off. commit_fields.
  destruct e; unfold handle.
  - rewrite Hl. repeat split; assumption.
  - rewrite Hl. repeat split; assumption.
  - destruct (scanner_shown w); [| repeat split; assumption].
    unfold startDetection_call. destruct (mediaDevices w); repeat split; assumption.
  - destruct (pending_media w !! request) as [r |]; [| repeat split; assumption].
    unfold startDetection_resume, setInterval, clearInterval. fields.
    destruct (videoRef w), (r_detectionInterval r); repeat split; assumption.
  - destruct (pending_media w !! request); repeat split; assumption.
  - destruct (timers w !! t) as [r |] eqn:E; [| repeat split; assumption].
    unfold detectObjects_call. rewrite (Ht t r E), Hm. repeat split; assumption.
  - rewrite Hf, lookup_nil. repeat split; assumption.
  - rewrite Hf, lookup_nil. repeat split; assumption.
  - destruct (results_shown w); [| repeat split; assumption].
    unfold resetScanner. fields. destruct (canvasRef w); repeat split; assumption.
Qed.

Lemma detection_off_run w es :
  reachable w -> detection_off w -> detection_off (run w es).
Proof.
  revert w. induction es as [| e es IH]; intros w Hr Hoff; [exact Hoff |].
  simpl. apply IH; [apply reachable_step, Hr | apply detection_off_step; assumption].
Qed.

(** X7. When the model fails to load, detection is off for good: whatever
    follows, the model stays missing, no poll is ever started and no item is
    ever recorded, and the message stays on the page. Start is on the page
    all the same, and a granted [start()] opens the camera and sets a timer
    whose ticks do nothing. *)
Theorem load_failure_disables_detection (supported : bool) (message : string)
    (es : list Event) :
  let failed := step (init supported) (ModelLoadFailed message) in
  detection_off (run failed es)
  /\ is_Some (error (run failed es))
  /\ scanner_shown failed = true
  /\ (supported = true ->
      forall tracks, live_tracks (start tracks failed) = tracks
                     /\ active_timers (start tracks failed) = 1).
Proof.
  intros failed.
  assert (Hr : reachable failed) by apply reachable_step, reachable_init.
  split; [apply detection_off_run; [exact Hr | repeat split] |].
  split; [apply run_error; eexists; reflexivity |].
  split; [reflexivity |].
  intros -> tracks.
  rewrite (start_world failed tracks);
    [| apply step_rendered | reflexivity | reflexivity].
  split.
  - rewrite (live_tracks_new_stream failed _ tracks) by apply resume_streams.
    reflexivity.
  - unfold active_timers. rewrite resume_timers. reflexivity.
Qed.

(** ** Streams the video no longer shows *)

Lemma detached_handle e w i :
  detached w i ->
  detached (handle e w) i /\ streams (handle e w) !! i = streams w !! i.
Proof.
  intros [Hlt Hv].
  assert (Hsame : detached w i /\ streams w !! i = streams w !! i)
    by (split; [split; assumption | reflexivity]).
  destruct e; unfold handle.
  - destruct (loading w); exact Hsame.
  - destruct (loading w); exact Hsame.
  - destruct (scanner_shown w); [| exact Hsame].
    unfold startDetection_call. destruct (mediaDevices w); exact Hsame.
  - destruct (pending_media w !! request) as [r |]; [| exact Hsame].
    split; [split |].
    + rewrite resume_streams. fields. rewrite length_app. lia.
    + unfold startDetection_resume, setInterval, clearInterval. fields.
      destruct (videoRef w) as [v |] eqn:Ev, (r_detectionInterval r); fields;
        rewrite ?Ev; intros v' Hv'; try discriminate Hv';
        injection Hv' as <-; cbn [srcObject]; intros Hi;
        injection Hi as Hi; lia.
    + rewrite resume_streams. fields. apply lookup_app_l. exact Hlt.
  - destruct (pending_media w !! request); exact Hsame.
  - destruct (timers w !! t) as [r |]; [| exact Hsame].
    unfold detectObjects_call.
    destruct (r_model r), (videoRef w), (canvasRef w); exact Hsame.
  - destruct (in_flight w !! poll0) as [r |]; [| exact Hsame].
    unfold detectObjects_resume, detectObjects_catch, stopCamera, clearInterval.
    fields.
    destruct (canvasRef w); [| exact Hsame].
    destruct (find qualifies predictions); [| exact Hsame].
    destruct (videoRef w) as [[[j |]] |] eqn:Ev;
      destruct (r_detectionInterval r); fields; rewrite ?Ev;
      try exact Hsame.
    all: assert (Hj : j <> i) by (intros ->; apply (Hv _ eq_refl); reflexivity).
    all: unfold detached; cbn [srcObject]; fields; rewrite Ev.
    all: split; [split; [rewrite length_alter; exact Hlt | ]
                | apply list_lookup_alter_ne; exact Hj].
    all: intros v' [= <-]; cbn [srcObject]; congruence.
  - destruct (in_flight w !! poll0); exact Hsame.
  - destruct (results_shown w); [| exact Hsame].
    unfold resetScanner. fields. destruct (canvasRef w); exact Hsame.
Qed.

Lemma detached_step e w i :
  detached w i ->
  detached (step w e) i /\ streams (step w e) !! i = streams w !! i.
Proof.
  intros H. destruct (detached_handle e w i H) as [[Hlt Hv] Hs].
  unfold step. split; [| rewrite commit_streams; exact Hs].
  split; [rewrite commit_streams; exact Hlt |].
  unfold commit. destruct (scanner_shown (handle e w)); fields.
  - intros v [= <-]. destruct (videoRef (handle e w)) as [v |] eqn:Ev.
    + apply (Hv v eq_refl).
    + discriminate.
  - discriminate.
Qed.

Lemma detached_run w i es :
  detached w i ->
  detached (run w es) i /\ streams (run w es) !! i = streams w !! i.
Proof.
  revert w. induction es as [| e es IH]; intros w H; [split; [exact H | reflexivity] |].
  simpl. destruct (detached_step e w i H) as [Hd Hs].
  destruct (IH _ Hd) as [Hd' Hs']. split; [exact Hd' |]. rewrite Hs'. exact Hs.
Qed.

(** X8. A stream that the video does not show is out of reach: whatever
    happens next, the video never shows it again and its tracks stay as
    they are. [stopCamera] reaches the stream of the video and no other. *)
Theorem detached_stream_never_stopped (w : World) (i : nat) (es : list Event) :
  detached w i ->
  detached (run w es) i /\ streams (run w es) !! i = streams w !! i.
Proof. apply detached_run. Qed.

Lemma detached_stream_never_stopped_witness :
  detached (start 1 detecting) 0
  /\ streams (start 1 detecting) !! 0 = Some [live]
  /\ streams
       (run (start 1 detecting)
          [Tick 2; DetectResolved 0 [detection "bottle" 0.75]; ClickReset;
           ClickStart; CameraGranted 0 1; Tick 3;
           DetectResolved 0 [detection "cup" 0.9]]) !! 0
     = Some [live].
Proof.
  assert (Hd : detached (start 1 detecting) 0).
  { split; [vm_compute; lia |]. intros v Hv.
    assert (E : videoRef (start 1 detecting) = Some {| srcObject := Some 1 |})
      by (vm_compute; reflexivity).
    rewrite E in Hv. injection Hv as <-. discriminate. }
  assert (Hs : streams (start 1 detecting) !! 0 = Some [live])
    by (vm_compute; reflexivity).
  split; [exact Hd |]. split; [exact Hs |].
  rewrite <- Hs.
  exact (proj2 (detached_stream_never_stopped (start 1 detecting) 0 _ Hd)).
Defined.

(** X9. A camera answer that arrives while no video is on the page (the
    results are shown) is taken all the same: the stream is attached to
    nothing, so its tracks stay live whatever happens next, and a timer is
    set for the closure of the click. *)
Theorem late_grant_leaks (w : World) (k tracks : nat) (r : Render) :
  videoRef w = None ->
  pending_media w !! k = Some r ->
  let w' := step w (CameraGranted k tracks) in
  streams w' = streams w ++ [replicate tracks live]
  /\ timers w' !! next_timer w = Some r
  /\ live_tracks w' = live_tracks w + tracks
  /\ forall es,
       streams (run w' es) !! length (streams w) = Some (replicate tracks live).
Proof.
  intros Hv Hk w'.
  assert (Hs : streams w' = streams w ++ [replicate tracks live]).
  { unfold w', step, handle. rewrite Hk, commit_streams, resume_streams.
    reflexivity. }
  split; [exact Hs |].
  split.
  { unfold w', step, handle. rewrite Hk, commit_timers, resume_timers. fields.
    apply lookup_insert_eq. }
  split; [apply live_tracks_new_stream, Hs |].
  intros es.
  assert (Hd : detached w' (length (streams w))).
  { split; [rewrite Hs, length_app; simpl; lia |].
    unfold w', step, handle. rewrite Hk. unfold commit.
    assert (Hnone : videoRef (startDetection_resume r tracks
                      (set_pending_media (delete k (pending_media w)) w)) = None).
    { unfold startDetection_resume, setInterval, clearInterval. fields.
      rewrite Hv. destruct (r_detectionInterval r); fields; exact Hv. }
    destruct (scanner_shown _); fields.
    - rewrite Hnone. intros v [= <-]. discriminate.
    - discriminate. }
  destruct (detached_run w' (length (streams w)) es Hd) as [_ E].
  transitivity (streams w' !! length (streams w)); [exact E |].
  rewrite Hs. apply list_lookup_middle. reflexivity.
Qed.

Lemma late_grant_leaks_witness :
  videoRef matched_while_asking = None
  /\ scannedItem matched_while_asking = Some "bottle"
  /\ pending_media matched_while_asking !! 0
     = Some {| r_model := Some CocoSsd;
               r_detectionInterval := Some 1%positive |}
  /\ live_tracks matched_while_asking = 0
  /\ live_tracks (step matched_while_asking (CameraGranted 0 1)) = 1
  /\ streams
       (run (step matched_while_asking (CameraGranted 0 1))
          [ClickReset; ClickStart; CameraGranted 0 1; Tick 3;
           DetectResolved 0 [detection "cup" 0.9]]) !! 1
     = Some [live].
Proof.
  assert (Hv : videoRef matched_while_asking = None) by (vm_compute; reflexivity).
  assert (Hk : pending_media matched_while_asking !! 0
               = Some {| r_model := Some CocoSsd;
                         r_detectionInterval := Some 1%positive |})
    by (vm_compute; reflexivity).
  destruct (late_grant_leaks matched_while_asking 0 1 _ Hv Hk)
    as (_ & _ & Hl & Hever).
  split; [exact Hv |]. split; [vm_compute; reflexivity |]. split; [exact Hk |].
  split; [vm_compute; reflexivity |]. split; [exact Hl |].
  exact (Hever _).
Defined.

(** ** Starting again *)

Lemma only_key_delete (m : gmap positive Render) (d : option positive) :
  (forall t, is_Some (m !! t) -> d = Some t) ->
  match d with Some t => delete t m | None => m end = ∅.
Proof.
  intros H. apply map_empty. intros t.
  destruct d as [t0 |].
  - destruct (decide (t0 = t)) as [-> | Hne]; [apply lookup_delete_eq |].
    rewrite lookup_delete_ne by exact Hne.
    apply eq_None_not_Some. intros Hs. specialize (H t Hs). congruence.
  - apply eq_None_not_Some. intros Hs. specialize (H t Hs). discriminate.
Qed.

(** X10. As long as the only timer that may run is the one whose handle
    the state holds, a granted [start()] replaces it: afterwards exactly one
    timer runs, the new one, with the closure of the click, and the same
    holds again. The stream of the earlier session is not stopped: the
    new tracks add to the live ones. *)
Theorem restart_replaces_timer (w : World) (tracks : nat) :
  rendered w -> scanner_shown w = true -> mediaDevices w = true ->
  one_timer w ->
  let w' := start tracks w in
  timers w' = {[ next_timer w := render_of w ]}
  /\ detectionInterval w' = Some (next_timer w)
  /\ one_timer w'
  /\ active_timers w' = 1
  /\ live_tracks w' = live_tracks w + tracks.
Proof.
  intros H Hs Hm Hone w'.
  assert (Hw' : w' = startDetection_resume (render_of w) tracks w)
    by (apply start_world; assumption).
  assert (Ht : timers w' = {[ next_timer w := render_of w ]}).
  { rewrite Hw', resume_timers. unfold render_of. fields.
    rewrite (only_key_delete (timers w) (detectionInterval w) Hone).
    apply insert_empty. }
  assert (Hd : detectionInterval w' = Some (next_timer w))
    by (rewrite Hw'; apply resume_detectionInterval).
  split; [exact Ht |]. split; [exact Hd |].
  split.
  { intros t [r Hr]. rewrite Ht in Hr.
    apply lookup_singleton_Some in Hr as [<- _]. exact Hd. }
  split; [unfold active_timers; rewrite Ht; apply map_size_singleton |].
  apply live_tracks_new_stream. rewrite Hw'. apply resume_streams.
Qed.

Lemma restart_replaces_timer_witness :
  rendered detecting /\ scanner_shown detecting = true
  /\ mediaDevices detecting = true /\ one_timer detecting
  /\ active_timers detecting = 1
  /\ active_timers (start 1 detecting) = 1
  /\ timers (start 1 detecting) !! 1%positive = None
  /\ live_tracks (start 1 detecting) = 2.
Proof.
  assert (Hr : rendered detecting) by (vm_compute; reflexivity).
  assert (Hs : scanner_shown detecting = true) by (vm_compute; reflexivity).
  assert (Hm : mediaDevices detecting = true) by (vm_compute; reflexivity).
  assert (Hone : one_timer detecting).
  { intros t [r Hr']. destruct (decide (t = 1%positive)) as [-> | Hne].
    - vm_compute. reflexivity.
    - exfalso. revert Hr'.
      assert (E : timers detecting
                  = {[ 1%positive := {| r_model := Some CocoSsd;
                                        r_detectionInterval := None |} ]})
        by (vm_compute; reflexivity).
      rewrite E, lookup_singleton_ne by congruence. discriminate. }
  destruct (restart_replaces_timer detecting 1 Hr Hs Hm Hone)
    as (Ht & _ & _ & Ha & Hl).
  split; [exact Hr |]. split; [exact Hs |]. split; [exact Hm |].
  split; [exact Hone |]. split; [vm_compute; reflexivity |].
  split; [exact Ha |]. split; [rewrite Ht; vm_compute; reflexivity |].
  exact Hl.
Defined.

(** ** stopCamera *)

Lemma stop_stop s : stop (stop s) = stop s.
Proof. unfold stop. rewrite map_map. reflexivity. Qed.

Lemma stop_no_live s : live ∉ stop s.
Proof.
  unfold stop. intros H. apply list_elem_of_In, in_map_iff in H as (x & Hx & _).
  discriminate.
Qed.

Lemma live_stop s : length (filter (fun t => t = live) (stop s)) = 0.
Proof.
  induction s as [| t s IH]; [reflexivity |].
  change (stop (t :: s)) with (ended :: stop s).
  change MediaStream with (list Track) in *.
  rewrite filter_cons_False by discriminate. exact IH.
Qed.

Lemma live_alter_stop (ss : list MediaStream) (i : nat) :
  length (filter (fun t => t = live) (concat (alter stop i ss)))
  <= length (filter (fun t => t = live) (concat ss)).
Proof.
  change MediaStream with (list Track) in *.
  revert i. induction ss as [| s ss IH]; intros i; [reflexivity |].
  destruct i as [| i].
  - change (alter stop 0 (s :: ss)) with (stop s :: ss).
    cbn [concat]. rewrite !filter_app, !length_app.
    pose proof (live_stop s) as Hz.
    change MediaStream with (list Track) in Hz. rewrite Hz. lia.
  - change (alter stop (S i) (s :: ss)) with (s :: alter stop i ss).
    cbn [concat]. rewrite !filter_app, !length_app.
    specialize (IH i). change MediaStream with (list Track) in *. lia.
Qed.

(** X11. [stopCamera] ends every track of the stream the video shows and
    touches no other stream, so the number of live tracks never grows; a
    second call changes nothing; without a video or without a stream on it,
    the call changes nothing at all. *)
Theorem stopCamera_ends_shown_stream (w : World) :
  stopCamera (stopCamera w) = stopCamera w
  /\ live_tracks (stopCamera w) <= live_tracks w
  /\ (forall v i, videoRef w = Some v -> srcObject v = Some i ->
        (forall s, streams (stopCamera w) !! i = Some s -> live ∉ s)
        /\ (forall j, j <> i -> streams (stopCamera w) !! j = streams w !! j))
  /\ ((forall v, videoRef w = Some v -> srcObject v = None) ->
      stopCamera w = w).
Proof.
  destruct (videoRef w) as [[[i |]] |] eqn:Ev.
  - assert (E : stopCamera w = set_streams (alter stop i (streams w)) w)
      by (unfold stopCamera; rewrite Ev; reflexivity).
    rewrite E. split; [| split; [apply live_alter_stop | split]].
    + unfold stopCamera. fields. rewrite Ev. cbn [srcObject]. fields.
      rewrite list_alter_alter_eq.
      rewrite (list_alter_ext (stop ∘ stop) stop (streams w) (streams w) i);
        [reflexivity | | reflexivity].
      intros s _. apply stop_stop.
    + intros v j [= <-] [= <-]. fields. split.
      * intros s. rewrite list_lookup_alter_eq.
        destruct (streams w !! i); [| discriminate].
        intros [= <-]. apply stop_no_live.
      * intros j Hj. apply list_lookup_alter_ne. congruence.
    + intros H. specialize (H _ eq_refl). discriminate.
  - assert (E : stopCamera w = w)
      by (unfold stopCamera; rewrite Ev; reflexivity).
    rewrite !E. split; [reflexivity |]. split; [reflexivity |].
    split; [intros v j [= <-]; discriminate | reflexivity].
  - assert (E : stopCamera w = w)
      by (unfold stopCamera; rewrite Ev; reflexivity).
    rewrite !E. split; [reflexivity |]. split; [reflexivity |].
    split; [intros v j; discriminate | reflexivity].
Qed.

(** ** What a poll leaves on the page *)

Lemma drawPredictions_length predictions :
  length (drawPredictions predictions) = 2 * length predictions.
Proof.
  unfold drawPredictions. induction predictions as [| p ps IH]; [reflexivity |].
  cbn [flat_map]. rewrite length_app, IH.
  unfold draw. destruct (bbox p) as [[[x y] width] height]. simpl. lia.
Qed.

(** X12. After a poll that finds nothing, the overlay is the drawing of
    the predictions of that poll and of nothing else: a box and a label for
    each, in their order; what an earlier poll drew is gone, and an empty
    list of predictions leaves an empty canvas. *)
Theorem overlay_shows_last_poll (w : World) (i : nat) (r : Render)
    (predictions : list Prediction) :
  rendered w -> scanner_shown w = true ->
  in_flight w !! i = Some r ->
  find qualifies predictions = None ->
  canvasRef (step w (DetectResolved i predictions))
  = Some (drawPredictions predictions)
  /\ length (drawPredictions predictions) = 2 * length predictions
  /\ (predictions = [] ->
      canvasRef (step w (DetectResolved i predictions)) = Some []).
Proof.
  intros H Hs Hi Hf.
  destruct (rendered_shown w H Hs) as [_ [c Ec]].
  assert (E : canvasRef (step w (DetectResolved i predictions))
              = Some (drawPredictions predictions)).
  { unfold step, handle. rewrite Hi. unfold detectObjects_resume. fields.
    rewrite Ec, Hf.
    rewrite (commit_same_view w); fields; try reflexivity; try assumption.
    rewrite Ec. split; intros _; eexists; reflexivity. }
  split; [exact E |]. split; [apply drawPredictions_length |].
  intros ->. exact E.
Qed.

Lemma overlay_shows_last_poll_witness :
  rendered chair_drawn /\ scanner_shown chair_drawn = true
  /\ in_flight chair_drawn !! 0
     = Some {| r_model := Some CocoSsd; r_detectionInterval := None |}
  /\ canvasRef chair_drawn = Some (drawPredictions [detection "chair" 0.95])
  /\ canvasRef (step chair_drawn (DetectResolved 0 []))
     = Some (drawPredictions []).
Proof.
  assert (Hr : rendered chair_drawn) by (vm_compute; reflexivity).
  assert (Hs : scanner_shown chair_drawn = true) by (vm_compute; reflexivity).
  assert (Hi : in_flight chair_drawn !! 0
               = Some {| r_model := Some CocoSsd; r_detectionInterval := None |})
    by (vm_compute; reflexivity).
  split; [exact Hr |]. split; [exact Hs |]. split; [exact Hi |].
  split; [vm_compute; reflexivity |].
  exact (proj1 (overlay_shows_last_poll chair_drawn 0 _ [] Hr Hs Hi eq_refl)).
Defined.

(** X13. A poll that finds a qualifying prediction while the scanner is on
    the page records its label, puts the results on the page with at least
    one project card, takes the video and the canvas off the page, and
    leaves the streams as [stopCamera] leaves them: the tracks of the stream
    the video showed are ended, the other streams are as they were. *)
Theorem match_shows_results (w : World) (i : nat) (r : Render)
    (predictions : list Prediction) (p : Prediction) :
  rendered w -> scanner_shown w = true ->
  in_flight w !! i = Some r ->
  find qualifies predictions = Some p ->
  let w' := step w (DetectResolved i predictions) in
  scannedItem w' = Some (class p)
  /\ results_shown w' = true
  /\ videoRef w' = None /\ canvasRef w' = None
  /\ streams w' = streams (stopCamera w)
  /\ project_cards w' <> [].
Proof.
  intros H Hs Hi Hf w'.
  destruct (rendered_shown w H Hs) as [_ Hc].
  assert (Hitem : scannedItem w' = Some (class p))
    by (apply (resolved_scannedItem w i r); assumption).
  assert (Hin : class p = "bottle" \/ class p = "cup").
  { apply includes_plasticItems. apply (find_qualifies_some _ _ Hf). }
  assert (Hl : loading w' = false).
  { unfold w', step, handle. rewrite Hi, commit_loading.
    unfold scanner_shown in Hs. apply andb_prop in Hs as [Hl _].
    apply negb_true_iff in Hl.
    unfold detectObjects_resume, detectObjects_catch, stopCamera, clearInterval.
    fields. destruct Hc as [c ->]. rewrite Hf.
    destruct (r_detectionInterval r), (videoRef w) as [[[s |]] |]; exact Hl. }
  assert (Hres : results_shown w' = true).
  { unfold results_shown. rewrite Hl, Hitem.
    destruct Hin as [-> | ->]; reflexivity. }
  assert (Hhid : scanner_shown w' = false).
  { unfold scanner_shown. rewrite Hl, Hitem.
    destruct Hin as [-> | ->]; reflexivity. }
  destruct (rendered_hidden w' (step_rendered w _) Hhid) as [Ev Ec].
  split; [exact Hitem |]. split; [exact Hres |].
  split; [exact Ev |]. split; [exact Ec |].
  split.
  { unfold w', step, handle. rewrite Hi, commit_streams.
    unfold detectObjects_resume, detectObjects_catch, stopCamera, clearInterval.
    fields. destruct Hc as [c ->]. rewrite Hf.
    destruct (r_detectionInterval r), (videoRef w) as [[[s |]] |]; reflexivity. }
  unfold project_cards. rewrite Hitem. cbn [mbind option_bind].
  destruct Hin as [-> | ->];
    [destruct PROJECTS_bottle as (ps & -> & Hne)
    | destruct PROJECTS_cup as (ps & -> & Hne)]; exact Hne.
Qed.

Lemma match_shows_results_witness :
  rendered polling /\ scanner_shown polling = true
  /\ in_flight polling !! 0
     = Some {| r_model := Some CocoSsd; r_detectionInterval := None |}
  /\ find qualifies [detection "chair" 0.95; detection "cup" 0.71]
     = Some (detection "cup" 0.71)
  /\ scannedItem
       (step polling
          (DetectResolved 0 [detection "chair" 0.95; detection "cup" 0.71]))
     = Some "cup"
  /\ live_tracks
       (step polling
          (DetectResolved 0 [detection "chair" 0.95; detection "cup" 0.71]))
     = 0.
Proof.
  assert (Hr : rendered polling) by reflexivity.
  assert (Hs : scanner_shown polling = true) by reflexivity.
  assert (Hi : in_flight polling !! 0
               = Some {| r_model := Some CocoSsd; r_detectionInterval := None |})
    by reflexivity.
  assert (Hf : find qualifies [detection "chair" 0.95; detection "cup" 0.71]
               = Some (detection "cup" 0.71)) by reflexivity.
  destruct (match_shows_results polling 0 _ _ _ Hr Hs Hi Hf) as (Hitem & _).
  split; [exact Hr |]. split; [exact Hs |]. split; [exact Hi |].
  split; [exact Hf |]. split; [exact Hitem |]. vm_compute. reflexivity.
Defined.

(** X14. [reset()] gives back no resource: the timers, the streams, the
    stored handle and the calls that wait are what they were, so a timer the
    match left running still runs; and the video element that comes back
    with the scanner is a new one, with no stream on it. *)
Theorem reset_keeps_resources (w : World) :
  rendered w -> results_shown w = true ->
  let w' := reset w in
  timers w' = timers w /\ streams w' = streams w
  /\ detectionInterval w' = detectionInterval w
  /\ in_flight w' = in_flight w /\ pending_media w' = pending_media w
  /\ videoRef w' = Some {| srcObject := None |}.
Proof.
  intros H Hs w'.
  assert (Hhid : scanner_shown w = false).
  { unfold results_shown in Hs. unfold scanner_shown.
    apply andb_prop in Hs as [-> ->]. reflexivity. }
  destruct (rendered_hidden w H Hhid) as [Ev Ec].
  assert (Hl : loading w = false).
  { unfold results_shown in Hs. apply andb_prop in Hs as [Hl _].
    apply negb_true_iff in Hl. exact Hl. }
  unfold w', reset, step, handle. rewrite Hs. commit_fields.
  unfold resetScanner. fields. rewrite Ec.
  repeat (split; [reflexivity |]).
  unfold commit, scanner_shown. fields. rewrite Hl, Ev. reflexivity.
Qed.

Lemma reset_keeps_resources_witness :
  rendered matched /\ results_shown matched = true
  /\ active_timers (reset matched) = 1
  /\ videoRef (reset matched) = Some {| srcObject := None |}
  /\ length (in_flight (step (reset matched) (Tick 1))) = 1.
Proof.
  assert (Hr : rendered matched) by (vm_compute; reflexivity).
  assert (Hs : results_shown matched = true) by (vm_compute; reflexivity).
  destruct (reset_keeps_resources matched Hr Hs) as (Ht & _ & _ & _ & _ & Hv).
  split; [exact Hr |]. split; [exact Hs |].
  split; [unfold active_timers; rewrite Ht; vm_compute; reflexivity |].
  split; [exact Hv |]. vm_compute. reflexivity.
Defined.

(** X15. In a reachable world the completion of a poll cancels no timer,
    whatever the predictions: when the poll matches, the handle it clears
    was cleared before its timer was set. *)
Theorem no_poll_cancels_a_timer (w : World) (i : nat)
    (predictions : list Prediction) :
  reachable w ->
  timers (step w (DetectResolved i predictions)) = timers w
  /\ active_timers (step w (DetectResolved i predictions)) = active_timers w.
Proof.
  intros Hr. pose proof (match_cancels_no_timer w i predictions Hr) as E.
  split; [exact E |]. unfold active_timers. rewrite E. reflexivity.
Qed.

Lemma no_poll_cancels_a_timer_witness :
  reachable (step detecting_again (Tick 2))
  /\ scannedItem
       (step (step detecting_again (Tick 2))
          (DetectResolved 0 [detection "cup" 0.9]))
     = Some "cup"
  /\ active_timers (step detecting_again (Tick 2)) = 1
  /\ active_timers
       (step (step detecting_again (Tick 2))
          (DetectResolved 0 [detection "cup" 0.9]))
     = 1.
Proof.
  assert (Hr : reachable (step detecting_again (Tick 2)))
    by apply reachable_step, reachable_detecting_again.
  destruct (no_poll_cancels_a_timer _ 0 [detection "cup" 0.9] Hr) as [_ Ha].
  split; [exact Hr |]. split; [vm_compute; reflexivity |].
  split; [vm_compute; reflexivity |].
  rewrite Ha. vm_compute. reflexivity.
Defined.

(** ** A poll that outlives its session *)

(** X16. A poll that is still in flight when the results are shown ends in
    the [catch] block although the model answered: [drawPredictions] finds
    no canvas, the error is logged as a detection error, and nothing is
    drawn or recorded, whatever the model answered. *)
Theorem late_poll_logs_error (w : World) (l : string) (i : nat) (r : Render)
    (predictions : list Prediction) :
  reachable w -> scannedItem w = Some l ->
  in_flight w !! i = Some r ->
  step w (DetectResolved i predictions)
  = set_console (console w ++ [("Detection error:", no_canvas)])
      (set_in_flight (delete i (in_flight w)) w).
Proof.
  intros Hr Hl Hi.
  pose proof (reachable_rendered w Hr) as H.
  destruct (reachable_matched_hidden w l Hr Hl) as [Ev Ec].
  unfold step, handle. rewrite Hi.
  unfold detectObjects_resume, detectObjects_catch. fields. rewrite Ec.
  apply (commit_same_view w); fields; try reflexivity; assumption.
Qed.

Lemma late_poll_logs_error_witness :
  reachable matched_overlapping
  /\ scannedItem matched_overlapping = Some "bottle"
  /\ in_flight matched_overlapping !! 0
     = Some {| r_model := Some CocoSsd; r_detectionInterval := None |}
  /\ console (step matched_overlapping (DetectResolved 0 [detection "cup" 0.9]))
     = [("Detection error:", no_canvas)].
Proof.
  assert (Hr : reachable matched_overlapping)
    by exact (reachable_run _ _ reachable_detecting).
  assert (Hl : scannedItem matched_overlapping = Some "bottle")
    by (vm_compute; reflexivity).
  assert (Hi : in_flight matched_overlapping !! 0
               = Some {| r_model := Some CocoSsd; r_detectionInterval := None |})
    by (vm_compute; reflexivity).
  split; [exact Hr |]. split; [exact Hl |]. split; [exact Hi |].
  rewrite (late_poll_logs_error matched_overlapping "bottle" 0 _
             [detection "cup" 0.9] Hr Hl Hi).
  vm_compute. reflexivity.
Defined.

(** ** Two clicks on Start *)

Lemma granted_world w k r tracks :
  rendered w -> scanner_shown w = true ->
  pending_media w !! k = Some r ->
  step w (CameraGranted k tracks)
  = startDetection_resume r tracks
      (set_pending_media (delete k (pending_media w)) w).
Proof.
  intros H Hs Hk. unfold step, handle. rewrite Hk.
  destruct (rendered_shown w H Hs) as [[v Ev] [c Ec]].
  apply (commit_same_view w); try assumption;
    unfold startDetection_resume, setInterval, clearInterval;
    fields; rewrite ?Ev; destruct (r_detectionInterval r); fields;
    rewrite ?Ev, ?Ec; try reflexivity; split; intros _; eexists; reflexivity.
Qed.

Lemma resume_scanner_shown r tracks w :
  scanner_shown (startDetection_resume r tracks w) = scanner_shown w.
Proof.
  unfold startDetection_resume, setInterval, clearInterval, scanner_shown.
  fields. destruct (videoRef w), (r_detectionInterval r); reflexivity.
Qed.

Lemma resume_pending_media r tracks w :
  pending_media (startDetection_resume r tracks w) = pending_media w.
Proof.
  unfold startDetection_resume, setInterval, clearInterval. fields.
  destruct (videoRef w), (r_detectionInterval r); reflexivity.
Qed.

(** X17. Two clicks on Start before the camera answers set two timers.
    Both calls were made from the same render, so both clear the handle that
    render held and neither clears the timer of the other: with both
    answers in, two timers run, and the state holds the second only. *)
Theorem double_click_sets_two_timers (w : World) (n m : nat) :
  reachable w -> scanner_shown w = true -> mediaDevices w = true ->
  pending_media w = [] -> one_timer w ->
  let w' := run w [ClickStart; ClickStart; CameraGranted 0 n; CameraGranted 0 m] in
  timers w' = <[(next_timer w + 1)%positive := render_of w]>
                {[ next_timer w := render_of w ]}
  /\ active_timers w' = 2
  /\ detectionInterval w' = Some (next_timer w + 1)%positive
  /\ live_tracks w' = live_tracks w + n + m.
Proof.
  intros Hr Hs Hm Hp Hone w'.
  pose proof (reachable_rendered w Hr) as H.
  pose proof (state_below w (reachable_handles_ok w Hr)) as Hbelow.
  set (r := render_of w).
  (* the two clicks *)
  set (w1 := set_pending_media [r] w).
  assert (E1 : step w ClickStart = w1).
  { rewrite (click_start w H Hs), Hm, Hp. reflexivity. }
  assert (H1 : rendered w1).
  { apply (commit_same_view w); fields; try reflexivity; assumption. }
  set (w2 := set_pending_media [r; r] w).
  assert (E2 : step w1 ClickStart = w2).
  { rewrite (click_start w1 H1 Hs). unfold w1. fields. rewrite Hm. reflexivity. }
  assert (H2 : rendered w2).
  { apply (commit_same_view w); fields; try reflexivity; assumption. }
  (* the first answer *)
  set (w3 := startDetection_resume r n w1).
  assert (E3 : step w2 (CameraGranted 0 n) = w3).
  { rewrite (granted_world w2 0 r n H2 Hs eq_refl). reflexivity. }
  assert (H3 : rendered w3) by (rewrite <- E3; apply step_rendered).
  assert (Hs3 : scanner_shown w3 = true)
    by (unfold w3; rewrite resume_scanner_shown; exact Hs).
  assert (Hp3 : pending_media w3 = [r])
    by (unfold w3; rewrite resume_pending_media; reflexivity).
  assert (Ht3 : timers w3 = {[ next_timer w := r ]}).
  { unfold w3. rewrite resume_timers. unfold w1, r, render_of. fields.
    rewrite (only_key_delete (timers w) (detectionInterval w) Hone).
    apply insert_empty. }
  assert (Hn3 : next_timer w3 = (next_timer w + 1)%positive)
    by (unfold w3; rewrite resume_next_timer; reflexivity).
  (* the second answer *)
  set (w4 := startDetection_resume r m
               (set_pending_media (delete 0 (pending_media w3)) w3)).
  assert (E4 : step w3 (CameraGranted 0 m) = w4).
  { apply granted_world; [exact H3 | exact Hs3 | rewrite Hp3; reflexivity]. }
  assert (Ew' : w' = w4).
  { unfold w', run. cbn [fold_left]. rewrite E1, E2, E3, E4. reflexivity. }
  assert (Ht4 : timers w4 = <[(next_timer w + 1)%positive := r]>
                              {[ next_timer w := r ]}).
  { unfold w4. rewrite resume_timers. fields. rewrite Hn3, Ht3. f_equal.
    unfold r, render_of. fields.
    destruct (detectionInterval w) as [d |] eqn:Ed; [| reflexivity].
    apply delete_id. apply lookup_singleton_ne.
    specialize (Hbelow d eq_refl). lia. }
  rewrite Ew'. split; [exact Ht4 |].
  split.
  { unfold active_timers. rewrite Ht4.
    rewrite map_size_insert_None by (apply lookup_singleton_ne; lia).
    rewrite map_size_singleton. reflexivity. }
  split.
  { unfold w4. rewrite resume_detectionInterval. fields. rewrite Hn3.
    reflexivity. }
  rewrite (live_tracks_new_stream w3 w4 m)
    by (unfold w4; rewrite resume_streams; reflexivity).
  rewrite (live_tracks_new_stream w w3 n)
    by (unfold w3; rewrite resume_streams; reflexivity).
  reflexivity.
Qed.

Lemma double_click_sets_two_timers_witness :
  reachable loaded /\ scanner_shown loaded = true /\ mediaDevices loaded = true
  /\ pending_media loaded = [] /\ one_timer loaded
  /\ active_timers
       (run loaded [ClickStart; ClickStart; CameraGranted 0 1; CameraGranted 0 1])
     = 2.
Proof.
  assert (Hs : scanner_shown loaded = true) by reflexivity.
  assert (Hm : mediaDevices loaded = true) by reflexivity.
  assert (Hp : pending_media loaded = []) by reflexivity.
  assert (Hone : one_timer loaded).
  { intros t [r Ht]. exfalso. revert Ht.
    assert (E : timers loaded = ∅) by reflexivity.
    rewrite E, lookup_empty. discriminate. }
  destruct (double_click_sets_two_timers loaded 1 1 reachable_loaded Hs Hm Hp Hone)
    as (_ & Ha & _).
  split; [exact reachable_loaded |]. split; [exact Hs |]. split; [exact Hm |].
  split; [exact Hp |]. split; [exact Hone | exact Ha].
Defined.
